(** * Mtab locking (libmount lock.c): a shallow embedding and its properties

    The C file implements the classic /etc/mtab locking scheme: a per-owner
    link file [<datafile>~.<id>] is hard-linked to the shared lock file
    [<datafile>~]; whoever makes the link owns the lock.  An fcntl record
    lock on the lock file only avoids an arbitrary sleep between attempts.

    The program is a sequence of system calls, so the embedding threads an
    explicit [world] through every call: the directory entries and inodes
    the calls act on, the descriptor table, the clock, [errno], and a script
    telling what the environment does at each coming call (how long it takes
    and whether an outside condition makes it fail).  Other processes show
    only through such failures: the directory itself changes through this
    process's calls alone.  The C functions are transcribed statement by
    statement over these calls.  Debug output (the DBG macro) is left out. *)

From Stdlib Require Import ZArith Lia.
From stdpp Require Import base option list gmap strings pretty.

Local Open Scope Z_scope.

(** ** errno values (Linux, asm-generic) *)
Module Errno.
Definition ENOENT : Z := 2.
Definition EINTR : Z := 4.
Definition EBADF : Z := 9.
Definition ENOMEM : Z := 12.
Definition EEXIST : Z := 17.
Definition EINVAL : Z := 22.
Definition EROFS : Z := 30.
Definition ETIMEDOUT : Z := 110.
End Errno.
Import Errno.

(** ** Flags and constants of the calls (Linux, fcntl.h and sys/stat.h) *)
Definition O_WRONLY : Z := 1.
Definition O_CREAT : Z := 64.      (* 0100 *)
Definition O_TRUNC : Z := 512.     (* 01000 *)
Definition S_IRUSR : Z := 256.     (* 0400 *)
Definition S_IWUSR : Z := 128.     (* 0200 *)
Definition F_SETLK : Z := 6.
Definition F_SETLKW : Z := 7.
Definition SIGALRM : Z := 14.

(** maximum seconds between first and last attempt *)
Definition MOUNTLOCK_MAXTIME : Z := 30.
(** sleep time (in microseconds) between attempts *)
Definition MOUNTLOCK_WAITTIME : Z := 5000.

(** ** The operating system, as far as lock.c uses it *)
Module Sys.

(** A file's identity is what stat(2) reports: (st_dev, st_ino). *)
Record inode := Inode { i_mode : Z; i_data : string }.

(** What the environment does while one call runs: [ev_tick] seconds
    pass, and [ev_fault = Some e] makes the call fail with errno [e]
    (permissions, a full or read-only filesystem, descriptor exhaustion, a
    signal, another process).  errno values are positive, as POSIX has
    them. *)
Record env_step := EnvStep { ev_tick : Z; ev_fault : option positive }.

Inductive call :=
| SysOpen (path : string) (flags mode : Z)
| SysClose (fd : Z)
| SysLink (oldpath newpath : string)
| SysUnlink (path : string)
| SysStat (path : string)
| SysFcntl (fd cmd : Z)
| SysGettimeofday
| SysAlarm (seconds : Z)
| SysSigaction (sig : Z)
| SysNanosleep (nsec : Z).

Record world := World {
  w_dir : gmap string (Z * Z);     (* directory entries: path to (st_dev, st_ino) *)
  w_ino : gmap (Z * Z) inode;      (* the inodes behind them *)
  w_next : Z * Z;                  (* identity the next created file gets *)
  w_fds : gmap Z (Z * Z);          (* this process's open descriptors *)
  w_umask : Z;
  w_pid : Z;
  w_now : Z;                       (* tv_sec of the wall clock *)
  w_errno : Z;
  w_heap : Z;                      (* live malloc blocks *)
  w_env : list env_step;           (* the environment's script, one step per call *)
  w_log : list (call * Z)          (* calls made, newest first, with the kernel's result *)
}.

Definition set_dir (d : gmap string (Z * Z)) (w : world) : world :=
  World d (w_ino w) (w_next w) (w_fds w) (w_umask w) (w_pid w) (w_now w)
        (w_errno w) (w_heap w) (w_env w) (w_log w).
Definition set_ino (i : gmap (Z * Z) inode) (w : world) : world :=
  World (w_dir w) i (w_next w) (w_fds w) (w_umask w) (w_pid w) (w_now w)
        (w_errno w) (w_heap w) (w_env w) (w_log w).
Definition set_next (n : Z * Z) (w : world) : world :=
  World (w_dir w) (w_ino w) n (w_fds w) (w_umask w) (w_pid w) (w_now w)
        (w_errno w) (w_heap w) (w_env w) (w_log w).
Definition set_fds (f : gmap Z (Z * Z)) (w : world) : world :=
  World (w_dir w) (w_ino w) (w_next w) f (w_umask w) (w_pid w) (w_now w)
        (w_errno w) (w_heap w) (w_env w) (w_log w).
Definition set_errno (e : Z) (w : world) : world :=
  World (w_dir w) (w_ino w) (w_next w) (w_fds w) (w_umask w) (w_pid w) (w_now w)
        e (w_heap w) (w_env w) (w_log w).
Definition set_heap (h : Z) (w : world) : world :=
  World (w_dir w) (w_ino w) (w_next w) (w_fds w) (w_umask w) (w_pid w) (w_now w)
        (w_errno w) h (w_env w) (w_log w).
Definition set_log (l : list (call * Z)) (w : world) : world :=
  World (w_dir w) (w_ino w) (w_next w) (w_fds w) (w_umask w) (w_pid w) (w_now w)
        (w_errno w) (w_heap w) (w_env w) l.

(** The step the environment takes when its script has run out: nothing
    happens, no time passes. *)
Definition calm : env_step := EnvStep 0 None.

(** Take the environment's next step: the clock advances by its tick. *)
Definition step (w : world) : env_step * world :=
  match w_env w with
  | [] => (calm, w)
  | s :: rest =>
      (s, World (w_dir w) (w_ino w) (w_next w) (w_fds w) (w_umask w) (w_pid w)
                (w_now w + ev_tick s) (w_errno w) (w_heap w) rest (w_log w))
  end.

(** Leave a call with the kernel's result [r] (negative: minus the errno).
    The libc wrapper turns a negative result into -1 and sets errno. *)
Definition ret (c : call) (r : Z) (w : world) : Z * world :=
  let w := set_log ((c, r) :: w_log w) w in
  if r <? 0 then (-1, set_errno (- r) w) else (r, w).

(** Lowest descriptor number that is not open. *)
Fixpoint first_free (fds : gmap Z (Z * Z)) (fuel : nat) (fd : Z) : Z :=
  match fuel with
  | O => fd
  | S k => match fds !! fd with
           | None => fd
           | Some _ => first_free fds k (fd + 1)
           end
  end.
Definition lowest_free (fds : gmap Z (Z * Z)) : Z := first_free fds (size fds) 0.

Definition has_flag (flags f : Z) : bool := negb (Z.land flags f =? 0).

(** open(2).  An existing file is opened as it is, and truncated only with
    O_TRUNC; a missing one is created with O_CREAT, empty, with the mode
    the caller asks for minus the umask. *)
Definition open (p : string) (flags mode : Z) (w : world) : Z * world :=
  let '(s, w) := step w in
  let c := SysOpen p flags mode in
  match ev_fault s with
  | Some e => ret c (- Z.pos e) w
  | None =>
      let fd := lowest_free (w_fds w) in
      match w_dir w !! p with
      | Some a =>
          let w := if has_flag flags O_TRUNC
                   then set_ino (alter (fun i => Inode (i_mode i) "") a (w_ino w)) w
                   else w in
          ret c fd (set_fds (<[fd := a]> (w_fds w)) w)
      | None =>
          if has_flag flags O_CREAT then
            let a := w_next w in
            let w := set_dir (<[p := a]> (w_dir w)) w in
            let w := set_ino (<[a := Inode (Z.ldiff mode (w_umask w)) ""]> (w_ino w)) w in
            let w := set_next (a.1, a.2 + 1) w in
            ret c fd (set_fds (<[fd := a]> (w_fds w)) w)
          else ret c (- ENOENT) w
      end
  end.

(** close(2): on Linux the descriptor is released even when the call
    reports an error. *)
Definition close (fd : Z) (w : world) : Z * world :=
  let '(s, w) := step w in
  let c := SysClose fd in
  match w_fds w !! fd with
  | None => ret c (- EBADF) w
  | Some _ =>
      let w := set_fds (delete fd (w_fds w)) w in
      match ev_fault s with
      | Some e => ret c (- Z.pos e) w
      | None => ret c 0 w
      end
  end.

(** link(2): atomic, fails with EEXIST when the new path exists. *)
Definition link (oldp newp : string) (w : world) : Z * world :=
  let '(s, w) := step w in
  let c := SysLink oldp newp in
  match ev_fault s with
  | Some e => ret c (- Z.pos e) w
  | None =>
      match w_dir w !! oldp with
      | None => ret c (- ENOENT) w
      | Some a =>
          match w_dir w !! newp with
          | Some _ => ret c (- EEXIST) w
          | None => ret c 0 (set_dir (<[newp := a]> (w_dir w)) w)
          end
      end
  end.

Definition unlink (p : string) (w : world) : Z * world :=
  let '(s, w) := step w in
  let c := SysUnlink p in
  match ev_fault s with
  | Some e => ret c (- Z.pos e) w
  | None =>
      match w_dir w !! p with
      | None => ret c (- ENOENT) w
      | Some _ => ret c 0 (set_dir (delete p (w_dir w)) w)
      end
  end.

(** stat(2): the result and, when it is 0, the file's (st_dev, st_ino). *)
Definition stat (p : string) (w : world) : Z * (Z * Z) * world :=
  let '(s, w) := step w in
  let c := SysStat p in
  match ev_fault s with
  | Some e => let '(r, w) := ret c (- Z.pos e) w in (r, (0, 0), w)
  | None =>
      match w_dir w !! p with
      | None => let '(r, w) := ret c (- ENOENT) w in (r, (0, 0), w)
      | Some a => let '(r, w) := ret c 0 w in (r, a, w)
      end
  end.

(** fcntl(2) with F_SETLK or F_SETLKW and a write lock on the whole file
    (l_type = F_WRLCK, l_whence = SEEK_SET, l_start = l_len = 0, the only
    struct flock lock.c builds).  Whether the lock is granted, and how
    long a blocking request waits, is the environment's: a fault of EINTR
    is a signal arriving during the wait. *)
Definition fcntl (fd cmd : Z) (w : world) : Z * world :=
  let '(s, w) := step w in
  let c := SysFcntl fd cmd in
  match w_fds w !! fd with
  | None => ret c (- EBADF) w
  | Some _ =>
      match ev_fault s with
      | Some e => ret c (- Z.pos e) w
      | None => ret c 0 w
      end
  end.

(** Calls that cannot fail as lock.c uses them: they read the clock or
    arm things, and take no step of the environment. *)
Definition gettimeofday (w : world) : Z * world :=
  (w_now w, set_log ((SysGettimeofday, 0) :: w_log w) w).
Definition alarm (seconds : Z) (w : world) : world :=
  set_log ((SysAlarm seconds, 0) :: w_log w) w.
Definition sigaction (sig : Z) (w : world) : world :=
  set_log ((SysSigaction sig, 0) :: w_log w) w.

(** nanosleep(2): time passes; lock.c ignores the result. *)
Definition nanosleep (nsec : Z) (w : world) : world :=
  let '(s, w) := step w in
  let c := SysNanosleep nsec in
  match ev_fault s with
  | Some e => (ret c (- Z.pos e) w).2
  | None => (ret c 0 w).2
  end.

Definition getpid (w : world) : Z := w_pid w.

(** malloc and free: an allocation takes a step of the environment, which
    may refuse it. *)
Definition malloc (w : world) : bool * world :=
  let '(s, w) := step w in
  match ev_fault s with
  | Some e => (false, set_errno (Z.pos e) w)
  | None => (true, set_heap (w_heap w + 1) w)
  end.
Definition free {A} (p : option A) (w : world) : world :=
  match p with
  | None => w
  | Some _ => set_heap (w_heap w - 1) w
  end.

(** The file a path names, if any. *)
Definition file_at (w : world) (p : string) : option inode :=
  a ← w_dir w !! p; w_ino w !! a.

(** Two paths name the same file (same device and inode). *)
Definition same_file (w : world) (p q : string) : Prop :=
  exists a, w_dir w !! p = Some a /\ w_dir w !! q = Some a.

(** The fault, if any, of the environment's next step: the one the next
    call that takes a step will meet. *)
Definition next_fault (w : world) : option positive := ev_fault (step w).1.

(** The environment never makes a call fail. *)
Definition no_faults (env : list env_step) : Prop :=
  Forall (fun s => ev_fault s = None) env.

End Sys.
Import Sys.

(** ** lock.c *)

(** printf's %d conversion of an int: decimal digits, a leading minus sign
    for negative numbers. *)
Definition fmt_d (n : Z) : string := pretty n.

(** asprintf(3): allocates the formatted string; [None] stands for the
    result -1. *)
Definition asprintf (s : string) (w : world) : option string * world :=
  let '(ok, w) := malloc w in
  if ok then (Some s, w) else (None, w).

(** calloc(3) of one struct: [None] stands for NULL. *)
Definition calloc (w : world) : option unit * world :=
  let '(ok, w) := malloc w in
  if ok then (Some (), w) else (None, w).

(** struct _mnt_lock.  A [char *] is an [option string], [None] being NULL;
    a [mnt_lock *] is an [option mnt_lock]. *)
Record mnt_lock := MntLock {
  lockfile : option string;    (* path to lock file (e.g. /etc/mtab~) *)
  linkfile : option string;    (* path to link file (e.g. /etc/mtab~.<id>) *)
  lockfile_fd : Z;             (* lock file descriptor *)
  locked : Z                   (* do we own the lock? *)
}.

Definition set_locked (v : Z) (m : mnt_lock) : mnt_lock :=
  MntLock (lockfile m) (linkfile m) (lockfile_fd m) v.
Definition set_lockfile_fd (v : Z) (m : mnt_lock) : mnt_lock :=
  MntLock (lockfile m) (linkfile m) v (locked m).

(** mnt_new_lock (lines 53-85). *)
Definition mnt_new_lock (datafile : option string) (id : Z) (w : world)
  : option mnt_lock * world :=
  match datafile with
  | None => (None, w)                                   (* if (!datafile) return NULL *)
  | Some d =>
      let '(lo, w) := asprintf (d +:+ "~") w in
      match lo with
      | None => (None, w)                               (* goto err; nothing to free *)
      | Some _ =>
          let '(ln, w) :=
            asprintf (d +:+ "~." +:+ fmt_d (if id =? 0 then getpid w else id)) w in
          match ln with
          | None => (None, free lo w)                   (* goto err *)
          | Some _ =>
              let '(ml, w) := calloc w in
              match ml with
              | None => (None, free ln (free lo w))     (* goto err *)
              | Some _ => (Some (MntLock lo ln (-1) 0), w)
              end
          end
      end
  end.

(** mnt_free_lock (lines 94-102). *)
Definition mnt_free_lock (ml : option mnt_lock) (w : world) : world :=
  match ml with
  | None => w
  | Some m => free ml (free (linkfile m) (free (lockfile m) w))
  end.

(** mnt_lock_get_lockfile (lines 110-113). *)
Definition mnt_lock_get_lockfile (ml : option mnt_lock) : option string :=
  match ml with
  | Some m => lockfile m
  | None => None
  end.

(** mnt_lock_get_linkfile (lines 124-127). *)
Definition mnt_lock_get_linkfile (ml : option mnt_lock) : option string :=
  match ml with
  | Some m => linkfile m
  | None => None
  end.

(** mnt_wait_lock (lines 140-171): 0 on success, 1 on timeout, -errno on
    error. *)
Definition mnt_wait_lock (m : mnt_lock) (maxtime : Z) (w : world) : Z * world :=
  let '(now, w) := gettimeofday w in
  if maxtime <=? now then (1, w)                        (* timeout *)
  else
    let w := sigaction SIGALRM w in
    let w := alarm (maxtime - now) w in
    let '(r, w) := fcntl (lockfile_fd m) F_SETLKW w in
    let ret := if r =? -1
               then (if w_errno w =? EINTR then 1 else - w_errno w)
               else 0 in
    let w := alarm 0 w in
    let w := sigaction SIGALRM w in                     (* restore old sigaction *)
    (ret, w).

(** The ownership re-check at the head of mnt_unlock_file (lines 235-248):
    [if (ml->locked == 0 && ml->lockfile && ml->linkfile) { ... }].  The
    second stat is made only when the first succeeded, the comparison only
    when both did. *)
Definition recheck_owner (m : mnt_lock) (w : world) : mnt_lock * world :=
  match lockfile m, linkfile m with
  | Some lo, Some lk =>
      if locked m =? 0 then
        (* We own the lock when linkfile == lockfile. *)
        let '(r1, st_lo, w) := stat lo w in
        if r1 =? 0 then
          let '(r2, st_li, w) := stat lk w in
          if (r2 =? 0) && (st_lo.1 =? st_li.1) && (st_lo.2 =? st_li.2)
          then (set_locked 1 m, w)
          else (m, w)
        else (m, w)
      else (m, w)
  | _, _ => (m, w)
  end.

(** mnt_unlock_file (lines 229-262). *)
Definition mnt_unlock_file (ml : option mnt_lock) (w : world)
  : option mnt_lock * world :=
  match ml with
  | None => (None, w)
  | Some m =>
      let '(m, w) := recheck_owner m w in
      let w := match linkfile m with
               | Some lk => (unlink lk w).2
               | None => w
               end in
      let w := if 0 <=? lockfile_fd m then (close (lockfile_fd m) w).2 else w in
      let w := match lockfile m with
               | Some lo => if locked m =? 1 then (unlink lo w).2 else w
               | None => w
               end in
      (Some (set_lockfile_fd (-1) (set_locked 0 m)), w)
  end.

(** The [failed:] label of mnt_lock_file (lines 432-434). *)
Definition failed (rc : Z) (m : mnt_lock) (w : world)
  : Z * option mnt_lock * world :=
  let '(ml, w) := mnt_unlock_file (Some m) w in
  (rc, ml, w).

(** [if (errno > 0) rc = -errno;] with rc still at its initial -1. *)
Definition rc_of_errno (e : Z) : Z := if 0 <? e then - e else -1.

(** The [while (ml->locked == 0)] loop of mnt_lock_file with what follows it
    (lines 362-430).  The loop has no bound of its own, so the embedding
    takes fuel, one unit per iteration; [None] is fuel running out. *)
Fixpoint lock_loop (fuel : nat) (m : mnt_lock) (lockf linkf : string)
    (maxtime : Z) (w : world) : option (Z * option mnt_lock * world) :=
  if negb (locked m =? 0) then
    (* successfully locked *)
    let '(_, w) := unlink linkf w in
    Some (0, Some m, w)
  else
    match fuel with
    | O => None
    | S fuel =>
        let '(j, w) := link linkf lockf w in
        let m := if j =? 0 then set_locked 1 m else m in
        if (j <? 0) && negb (w_errno w =? EEXIST) then
          Some (failed (rc_of_errno (w_errno w)) m w)
        else
          let '(fd, w) := open lockf O_WRONLY 0 w in
          let m := set_lockfile_fd fd m in
          if fd <? 0 then
            (* Strange... Maybe the file was just deleted? *)
            let errsv := w_errno w in
            let '(now, w) := gettimeofday w in
            if (errsv =? ENOENT) && (now <? maxtime) then
              lock_loop fuel (set_locked 0 m) lockf linkf maxtime w    (* continue *)
            else
              Some (failed (rc_of_errno errsv) m w)
          else if negb (locked m =? 0) then
            (* We made the link. Now claim the lock. *)
            let '(_, w) := fcntl fd F_SETLK w in
            (* proceed, since it was us who created the lockfile anyway *)
            let '(_, w) := unlink linkf w in                 (* break *)
            Some (0, Some m, w)
          else
            (* Someone else made the link. Wait. *)
            let '(err, w) := mnt_wait_lock m maxtime w in
            if err =? 1 then
              Some (failed (- ETIMEDOUT) m w)
            else if err <? 0 then
              Some (failed err m w)
            else
              let w := nanosleep (1000 * MOUNTLOCK_WAITTIME) w in
              let '(_, w) := close fd w in
              lock_loop fuel (set_lockfile_fd (-1) m) lockf linkf maxtime w
    end.

(** mnt_lock_file (lines 326-435). *)
Definition mnt_lock_file (fuel : nat) (ml : option mnt_lock) (w : world)
  : option (Z * option mnt_lock * world) :=
  match ml with
  | None => Some (- EINVAL, None, w)
  | Some m =>
      if negb (locked m =? 0) then Some (0, ml, w)
      else
        match mnt_lock_get_lockfile ml with
        | None => Some (- EINVAL, ml, w)
        | Some lockf =>
            match mnt_lock_get_linkfile ml with
            | None => Some (- EINVAL, ml, w)
            | Some linkf =>
                let '(i, w) := open linkf (Z.lor O_WRONLY O_CREAT)
                                    (Z.lor S_IRUSR S_IWUSR) w in
                if i <? 0 then
                  Some (failed (rc_of_errno (w_errno w)) m w)
                else
                  let '(_, w) := close i w in
                  let '(now, w) := gettimeofday w in
                  let maxtime := now + MOUNTLOCK_MAXTIME in
                  lock_loop fuel m lockf linkf maxtime w
            end
        end
  end.

(** ** Running the model on small worlds *)

Definition world0 : world :=
  World ∅ ∅ (1, 100) ∅ 18 4242 1000 0 0 [] [].


(** ** What each call leaves alone *)

Ltac sys_unfold :=
  unfold open, close, link, unlink, stat, fcntl, nanosleep, gettimeofday,
    alarm, sigaction, malloc, free, ret, step,
    set_dir, set_ino, set_next, set_fds, set_errno, set_heap, set_log in *.

Ltac sys_cases :=
  sys_unfold; simpl in *;
  repeat (case_match; simpl in *; simplify_eq; simpl in * ).

Section Frames.
Implicit Types (w : world) (p q : string) (fd : Z).

Lemma unlink_dir_ne p q w : p <> q -> w_dir (unlink p w).2 !! q = w_dir w !! q.
Proof. intros Hne. sys_cases; auto; by rewrite lookup_delete_ne. Qed.

Lemma unlink_fds p w : w_fds (unlink p w).2 = w_fds w.
Proof. sys_cases; auto. Qed.

Lemma unlink_ino p w : w_ino (unlink p w).2 = w_ino w.
Proof. sys_cases; auto. Qed.

Lemma unlink_absent p w : w_dir w !! p = None -> w_dir (unlink p w).2 = w_dir w.
Proof. intros H. sys_cases; auto. Qed.

Lemma close_dir fd w : w_dir (close fd w).2 = w_dir w.
Proof. sys_cases; auto. Qed.

Lemma close_ino fd w : w_ino (close fd w).2 = w_ino w.
Proof. sys_cases; auto. Qed.

Lemma close_closed fd w : w_fds (close fd w).2 !! fd = None.
Proof. sys_cases; auto; by rewrite lookup_delete_eq. Qed.

Lemma stat_dir p w : w_dir (stat p w).2 = w_dir w.
Proof. sys_cases; auto. Qed.

Lemma stat_ino p w : w_ino (stat p w).2 = w_ino w.
Proof. sys_cases; auto. Qed.

Lemma stat_fds p w : w_fds (stat p w).2 = w_fds w.
Proof. sys_cases; auto. Qed.

(** stat succeeds only on a path that exists, and then reports its
    identity. *)
Lemma stat_ok p w r a w' :
  stat p w = (r, a, w') -> r = 0 -> w_dir w !! p = Some a.
Proof. intros H Hr. sys_cases; auto; lia. Qed.

End Frames.

(** ** Creating a handle *)

Example fmt_d_pid : fmt_d 4242 = "4242".
Proof. reflexivity. Qed.

Example fmt_d_negative : fmt_d (-7) = "-7".
Proof. reflexivity. Qed.

Example fmt_d_zero : fmt_d 0 = "0".
Proof. reflexivity. Qed.

Lemma malloc_pid w : w_pid (malloc w).2 = w_pid w.
Proof. sys_cases; auto. Qed.

Lemma asprintf_pid s w : w_pid (asprintf s w).2 = w_pid w.
Proof. unfold asprintf. pose proof (malloc_pid w). destruct (malloc w) as [[] ?]; auto. Qed.

(** What no allocation touches: files, descriptors and the log of calls. *)
Definition same_io (w w' : world) : Prop :=
  w_dir w' = w_dir w /\ w_ino w' = w_ino w /\ w_next w' = w_next w /\
  w_fds w' = w_fds w /\ w_log w' = w_log w.

Lemma same_io_refl w : same_io w w.
Proof. by repeat split. Qed.

Lemma same_io_trans w1 w2 w3 : same_io w1 w2 -> same_io w2 w3 -> same_io w1 w3.
Proof. unfold same_io. intros (?&?&?&?&?) (?&?&?&?&?). repeat split; congruence. Qed.

Lemma malloc_same_io w : same_io w (malloc w).2.
Proof. unfold same_io. sys_cases; auto. Qed.

Lemma free_same_io {A} (p : option A) w : same_io w (free p w).
Proof. unfold same_io. destruct p; sys_cases; auto. Qed.

Lemma asprintf_same_io s w : same_io w (asprintf s w).2.
Proof. unfold asprintf. pose proof (malloc_same_io w). destruct (malloc w) as [[] ?]; auto. Qed.

Lemma calloc_same_io w : same_io w (calloc w).2.
Proof. unfold calloc. pose proof (malloc_same_io w). destruct (malloc w) as [[] ?]; auto. Qed.

Lemma mnt_new_lock_same_io datafile id w : same_io w (mnt_new_lock datafile id w).2.
Proof.
  unfold mnt_new_lock. destruct datafile as [d|]; [|apply same_io_refl].
  pose proof (asprintf_same_io (d +:+ "~") w) as H1.
  destruct (asprintf (d +:+ "~") w) as [[lo|] w1]; simpl in *; [|done].
  match goal with |- context [asprintf ?s w1] =>
    pose proof (asprintf_same_io s w1) as H2; destruct (asprintf s w1) as [[ln|] w2] end;
    simpl in *.
  - pose proof (calloc_same_io w2) as H3.
    destruct (calloc w2) as [[u|] w3]; simpl in *.
    + eauto using same_io_trans.
    + eauto using same_io_trans, free_same_io.
  - eauto using same_io_trans, free_same_io.
Qed.

Lemma malloc_granted w :
  no_faults (take 1 (w_env w)) ->
  malloc w = (true, set_heap (w_heap w + 1) (step w).2).
Proof.
  unfold malloc, step, no_faults. destruct (w_env w) as [|s rest]; simpl; [done|].
  intros H. apply Forall_cons in H as [-> _]. done.
Qed.

Lemma mnt_new_lock_granted p id w :
  no_faults (take 3 (w_env w)) ->
  exists w',
    mnt_new_lock (Some p) id w =
      (Some (MntLock (Some (p +:+ "~"))
                     (Some (p +:+ "~." +:+ fmt_d (if id =? 0 then w_pid w else id)))
                     (-1) 0), w') /\
    w_heap w' = w_heap w + 3.
Proof.
  unfold mnt_new_lock, asprintf, calloc, malloc, getpid, step, no_faults.
  destruct w as [d i nx f um pid now er hp env lg]; simpl.
  destruct env as [|[t1 f1] [|[t2 f2] [|[t3 f3] rest]]]; simpl; intros H;
    repeat (apply Forall_cons in H as [? H]); simpl in *; subst; simpl;
    eexists; (split; [reflexivity|simpl; lia]).
Qed.

(** The handle mnt_new_lock returns, when it returns one. *)
Lemma new_lock_handle (p : string) (id : Z) (w w' : world) (m : mnt_lock) :
  mnt_new_lock (Some p) id w = (Some m, w') ->
  lockfile m = Some (p +:+ "~") /\
  linkfile m = Some (p +:+ "~." +:+ fmt_d (if id =? 0 then getpid w else id)) /\
  lockfile_fd m = -1 /\ locked m = 0.
Proof.
  unfold mnt_new_lock. intros H.
  destruct (asprintf (p +:+ "~") w) as [lo w1] eqn:E1.
  pose proof (asprintf_pid (p +:+ "~") w) as Hpid. rewrite E1 in Hpid. simpl in Hpid.
  unfold getpid in *. rewrite Hpid in H.
  unfold asprintf in E1. destruct (malloc w) as [[] ?]; simplify_eq.
  unfold asprintf in H. destruct (malloc w1) as [[] w2]; simplify_eq.
  unfold calloc in H. destruct (malloc w2) as [[] w3]; simplify_eq.
  done.
Qed.

(** C4: for every target path and owner id, mnt_new_lock computes the lock
    file path as the target path followed by "~" and the link file path as
    the target path followed by "~." and the owner id in decimal, the id
    being the caller's pid when 0 is passed; the handle it returns is fully
    determined by the path, the id and the pid. *)
Theorem mnt_new_lock_paths (p : string) (id : Z) (w w' : world) (m : mnt_lock) :
  mnt_new_lock (Some p) id w = (Some m, w') ->
  lockfile m = Some (p +:+ "~") /\
  linkfile m = Some (p +:+ "~." +:+ fmt_d (if id =? 0 then getpid w else id)) /\
  lockfile_fd m = -1 /\ locked m = 0.
Proof.
  unfold mnt_new_lock. intros H.
  destruct (asprintf (p +:+ "~") w) as [lo w1] eqn:E1.
  pose proof (asprintf_pid (p +:+ "~") w) as Hpid. rewrite E1 in Hpid. simpl in Hpid.
  unfold getpid in *. rewrite Hpid in H.
  unfold asprintf in E1. destruct (malloc w) as [[] ?]; simplify_eq.
  unfold asprintf in H. destruct (malloc w1) as [[] w2]; simplify_eq.
  unfold calloc in H. destruct (malloc w2) as [[] w3]; simplify_eq.
  done.
Qed.

Lemma mnt_new_lock_paths_witness :
  exists m, (mnt_new_lock (Some "/etc/mtab") 0 world0).1 = Some m /\
            lockfile m = Some "/etc/mtab~" /\
            linkfile m = Some "/etc/mtab~.4242" /\
            lockfile_fd m = -1 /\ locked m = 0.
Proof.
  eexists. split; [reflexivity|].
  apply (mnt_new_lock_paths "/etc/mtab" 0 world0 (mnt_new_lock (Some "/etc/mtab") 0 world0).2).
  reflexivity.
Defined.

(** C2, as amended: mnt_new_lock returns NULL, nothing done, when datafile is
    NULL; an empty string is a path like any other.  For every string it
    makes no call on files or descriptors whatever the outcome, and when the
    three allocations are granted it returns a handle (descriptor -1, not
    locked) and the heap holds three more blocks. *)
Theorem mnt_new_lock_accepts_every_string (p : string) (id : Z) (w : world) :
  mnt_new_lock None id w = (None, w) /\
  same_io w (mnt_new_lock (Some p) id w).2 /\
  (no_faults (take 3 (w_env w)) ->
   exists m w', mnt_new_lock (Some p) id w = (Some m, w') /\
                lockfile_fd m = -1 /\ locked m = 0 /\
                w_heap w' = w_heap w + 3).
Proof.
  split; [reflexivity|]. split; [apply mnt_new_lock_same_io|].
  intros H. destruct (mnt_new_lock_granted p id w H) as (w' & E & Hh).
  eexists _, w'. rewrite E. repeat split. exact Hh.
Qed.

Lemma mnt_new_lock_accepts_every_string_witness :
  exists m w', mnt_new_lock (Some "/etc/mtab") 7 world0 = (Some m, w') /\
               lockfile_fd m = -1 /\ locked m = 0 /\
               w_heap w' = w_heap world0 + 3.
Proof.
  apply (proj2 (proj2 (mnt_new_lock_accepts_every_string "/etc/mtab" 7 world0))).
  simpl. constructor.
Defined.

(** The empty string is not refused: the handle is for "~" and "~.<pid>". *)
Lemma mnt_new_lock_empty_string :
  (mnt_new_lock (Some "") 0 world0).1
  = Some (MntLock (Some "~") (Some "~.4242") (-1) 0).
Proof. reflexivity. Qed.

(** ** NULL handles *)

(** C10: every public operation tolerates a NULL handle: mnt_lock_file
    returns -EINVAL, mnt_unlock_file and mnt_free_lock do nothing, and the
    two path accessors return NULL. *)
Theorem null_handle_tolerated (fuel : nat) (w : world) :
  mnt_lock_file fuel None w = Some (- EINVAL, None, w) /\
  mnt_unlock_file None w = (None, w) /\
  mnt_free_lock None w = w /\
  mnt_lock_get_lockfile None = None /\
  mnt_lock_get_linkfile None = None.
Proof. repeat split. Qed.

(** ** Releasing *)

Section Release.
Implicit Types (m : mnt_lock) (w : world).

Lemma recheck_owner_fields m w :
  let m' := (recheck_owner m w).1 in
  lockfile m' = lockfile m /\ linkfile m' = linkfile m /\
  lockfile_fd m' = lockfile_fd m.
Proof.
  unfold recheck_owner. repeat case_match; simpl; auto.
Qed.

Lemma recheck_owner_io m w :
  let w' := (recheck_owner m w).2 in
  w_dir w' = w_dir w /\ w_ino w' = w_ino w /\ w_fds w' = w_fds w.
Proof.
  unfold recheck_owner.
  destruct (lockfile m) as [lo|], (linkfile m) as [lk|]; simpl; auto.
  destruct (locked m =? 0); simpl; auto.
  pose proof (stat_dir lo w) as Hd1. pose proof (stat_ino lo w) as Hi1.
  pose proof (stat_fds lo w) as Hf1.
  destruct (stat lo w) as [[r1 a1] w1]; simpl in *.
  destruct (r1 =? 0); simpl; auto.
  pose proof (stat_dir lk w1) as Hd2. pose proof (stat_ino lk w1) as Hi2.
  pose proof (stat_fds lk w1) as Hf2.
  destruct (stat lk w1) as [[r2 a2] w2]; simpl in *.
  case_match; simpl; repeat split; congruence.
Qed.

(** The re-check turns the flag on only for a handle whose two paths name
    one file; otherwise it leaves the flag as it was. *)
Lemma recheck_owner_locked m w :
  let m' := (recheck_owner m w).1 in
  locked m' = locked m \/
  (locked m = 0 /\ locked m' = 1 /\
   exists lo lk, lockfile m = Some lo /\ linkfile m = Some lk /\ same_file w lo lk).
Proof.
  unfold recheck_owner.
  destruct (lockfile m) as [lo|] eqn:Elo, (linkfile m) as [lk|] eqn:Elk; simpl; auto.
  destruct (locked m =? 0) eqn:El; simpl; auto.
  destruct (stat lo w) as [[r1 a1] w1] eqn:E1; simpl in *.
  destruct (r1 =? 0) eqn:Er1; simpl; auto.
  destruct (stat lk w1) as [[r2 a2] w2] eqn:E2; simpl in *.
  case_match; simpl; auto. right.
  repeat match goal with H : _ && _ = true |- _ => apply andb_prop in H as [? ?] end.
  split; [lia|]. split; [done|]. exists lo, lk. repeat split; auto.
  exists a1. split.
  - eapply stat_ok; eauto. lia.
  - pose proof (stat_dir lo w) as Hd. rewrite E1 in Hd. simpl in Hd. rewrite <- Hd.
    replace a1 with a2; [eapply stat_ok; eauto; lia|].
    destruct a1, a2; simpl in *. f_equal; lia.
Qed.


(** A handle that is not flagged as owner, and whose link file is not the
    lock file under another name, leaves the lock file's directory entry
    and every inode alone. *)
Lemma unlock_keeps_lockfile m w lo :
  locked m = 0 -> lockfile m = Some lo ->
  (forall lk, linkfile m = Some lk -> ~ same_file w lo lk) ->
  let w' := (mnt_unlock_file (Some m) w).2 in
  w_dir w' !! lo = w_dir w !! lo /\ w_ino w' = w_ino w.
Proof.
  intros Hl Hlo Hns. unfold mnt_unlock_file.
  pose proof (recheck_owner_fields m w) as (F1 & F2 & F3).
  pose proof (recheck_owner_io m w) as (I1 & I2 & I3).
  pose proof (recheck_owner_locked m w) as L.
  destruct (recheck_owner m w) as [m1 w1]; simpl in *.
  assert (locked m1 = 0) as Hl1.
  { destruct L as [L|(_ & _ & lo' & lk & ? & ? & Hs)]; [congruence|].
    exfalso. apply (Hns lk); [done|]. congruence. }
  rewrite F1, F2, F3, Hlo, Hl1. simpl.
  set (w2 := match linkfile m with Some lk => (unlink lk w1).2 | None => w1 end).
  assert (w_dir w2 !! lo = w_dir w !! lo /\ w_ino w2 = w_ino w) as [D2 N2].
  { subst w2. destruct (linkfile m) as [lk|] eqn:Elk; [|split; congruence].
    rewrite unlink_ino. split; [|done].
    destruct (decide (lk = lo)) as [->|Hne].
    - destruct (w_dir w !! lo) as [a|] eqn:Ea.
      + exfalso. apply (Hns lo); [done|]. by exists a.
      + rewrite unlink_absent; congruence.
    - rewrite unlink_dir_ne; congruence. }
  destruct (0 <=? lockfile_fd m); simpl; [rewrite close_dir, close_ino|]; done.
Qed.

End Release.






(** ** Releasing twice *)

Section Idempotence.
Implicit Types (m : mnt_lock) (w : world) (p q : string).

Lemma no_faults_step w :
  no_faults (w_env w) ->
  ev_fault (step w).1 = None /\ no_faults (w_env (step w).2).
Proof.
  unfold step, no_faults. destruct (w_env w) as [|s rest] eqn:E; simpl.
  - rewrite E. by split.
  - intros H. by apply Forall_cons in H.
Qed.

Ltac quiet_cases H :=
  let Hs := fresh in
  pose proof (no_faults_step _ H) as Hs; revert Hs;
  sys_unfold; simpl;
  repeat (case_match; simpl in *; simplify_eq; simpl in * );
  intros [? ?]; simplify_eq; auto.

Lemma unlink_quiet p w : no_faults (w_env w) -> no_faults (w_env (unlink p w).2).
Proof. intros H. quiet_cases H. Qed.

Lemma close_quiet fd w : no_faults (w_env w) -> no_faults (w_env (close fd w).2).
Proof. intros H. quiet_cases H. Qed.

Lemma stat_quiet p w : no_faults (w_env w) -> no_faults (w_env (stat p w).2).
Proof. intros H. quiet_cases H. Qed.

Lemma unlink_gone p w : no_faults (w_env w) -> w_dir (unlink p w).2 !! p = None.
Proof. intros H. quiet_cases H; by rewrite lookup_delete_eq. Qed.

(** unlink never creates a directory entry. *)
Lemma unlink_stays_absent p q w :
  w_dir w !! q = None -> w_dir (unlink p w).2 !! q = None.
Proof.
  intros H. sys_cases; auto; rewrite lookup_delete; case_decide; auto.
Qed.

Lemma stat_absent p w : w_dir w !! p = None -> (stat p w).1.1 = -1.
Proof. intros H. sys_cases; auto. Qed.

Lemma recheck_owner_quiet m w :
  no_faults (w_env w) -> no_faults (w_env (recheck_owner m w).2).
Proof.
  intros H. unfold recheck_owner.
  destruct (lockfile m) as [lo|], (linkfile m) as [lk|]; simpl; auto.
  destruct (locked m =? 0); simpl; auto.
  pose proof (stat_quiet lo w H) as H1.
  destruct (stat lo w) as [[r1 a1] w1]; simpl in *.
  destruct (r1 =? 0); simpl; auto.
  pose proof (stat_quiet lk w1 H1) as H2.
  destruct (stat lk w1) as [[r2 a2] w2]; simpl in *.
  case_match; done.
Qed.

(** After a release that the environment did not disturb, the link file
    is gone. *)
Lemma unlock_removes_linkfile m w lk :
  no_faults (w_env w) -> linkfile m = Some lk ->
  w_dir (mnt_unlock_file (Some m) w).2 !! lk = None.
Proof.
  intros H Hlk. unfold mnt_unlock_file.
  pose proof (recheck_owner_fields m w) as (F1 & F2 & F3).
  pose proof (recheck_owner_quiet m w H) as Hq.
  destruct (recheck_owner m w) as [m1 w1]; simpl in *.
  rewrite F2, Hlk.
  pose proof (unlink_gone lk w1 Hq) as Hg.
  set (w2 := (unlink lk w1).2) in *.
  assert (w_dir (if 0 <=? lockfile_fd m1 then (close (lockfile_fd m1) w2).2 else w2)
            !! lk = None) as Hc.
  { destruct (0 <=? lockfile_fd m1); [rewrite close_dir|]; done. }
  destruct (lockfile m1) as [lo|]; [|done].
  destruct (locked m1 =? 1); [|done].
  by apply unlink_stays_absent.
Qed.

(** Every release ends with the flag off and the descriptor field at -1. *)
Lemma unlock_resets m w :
  exists m', (mnt_unlock_file (Some m) w).1 = Some m' /\
             lockfile m' = lockfile m /\ linkfile m' = linkfile m /\
             locked m' = 0 /\ lockfile_fd m' = -1.
Proof.
  unfold mnt_unlock_file.
  pose proof (recheck_owner_fields m w) as (F1 & F2 & F3).
  destruct (recheck_owner m w) as [m1 w1]; simpl in *.
  eexists. split; [reflexivity|]. simpl. auto.
Qed.

(** A released handle whose link file is gone: releasing it changes
    neither the handle nor any file or descriptor. *)
Lemma unlock_released_noop m w :
  locked m = 0 -> lockfile_fd m = -1 ->
  (forall lk, linkfile m = Some lk -> w_dir w !! lk = None) ->
  let r := mnt_unlock_file (Some m) w in
  r.1 = Some m /\ w_dir r.2 = w_dir w /\ w_ino r.2 = w_ino w /\ w_fds r.2 = w_fds w.
Proof.
  intros Hl Hfd Hgone. unfold mnt_unlock_file.
  pose proof (recheck_owner_fields m w) as (F1 & F2 & F3).
  pose proof (recheck_owner_io m w) as (I1 & I2 & I3).
  pose proof (recheck_owner_locked m w) as L.
  destruct (recheck_owner m w) as [m1 w1]; simpl in *.
  assert (locked m1 = 0) as Hl1.
  { destruct L as [L|(_ & _ & lo & lk & _ & Hlk & a & _ & Ha)]; [congruence|].
    rewrite (Hgone lk Hlk) in Ha. discriminate Ha. }
  rewrite F3, Hfd, Hl1. simpl.
  assert (Some (set_lockfile_fd (-1) (set_locked 0 m1)) = Some m) as ->.
  { destruct m, m1; simpl in *; subst; reflexivity. }
  assert (match lockfile m1 with Some _ => _ | None => _ end =
          match linkfile m1 with Some lk => (unlink lk w1).2 | None => w1 end) as ->.
  { by destruct (lockfile m1). }
  rewrite F2. destruct (linkfile m) as [lk|] eqn:Elk; [|by auto].
  rewrite unlink_ino, unlink_fds, unlink_absent; [by auto|].
  rewrite I1. by apply Hgone.
Qed.

End Idempotence.

(** C5: mnt_unlock_file is idempotent.  It cannot fail (it returns nothing
    and is total); with an environment that fails no call, a second release
    right after the first changes neither the handle nor any directory
    entry, inode or descriptor, the first having left the flag off and the
    descriptor field at -1. *)
Theorem mnt_unlock_file_idempotent (ml : option mnt_lock) (w : world) :
  no_faults (w_env w) ->
  let '(ml1, w1) := mnt_unlock_file ml w in
  let '(ml2, w2) := mnt_unlock_file ml1 w1 in
  ml2 = ml1 /\ w_dir w2 = w_dir w1 /\ w_ino w2 = w_ino w1 /\ w_fds w2 = w_fds w1 /\
  (forall m1, ml1 = Some m1 -> locked m1 = 0 /\ lockfile_fd m1 = -1).
Proof.
  intros H. destruct ml as [m|]; [|simpl; repeat split; intros; discriminate].
  destruct (unlock_resets m w) as (m1 & E1 & P1 & P2 & Hl & Hfd).
  pose proof (fun lk => unlock_removes_linkfile m w lk H) as Hgone.
  destruct (mnt_unlock_file (Some m) w) as [ml1 w1]; simpl in *. subst ml1.
  assert (forall lk, linkfile m1 = Some lk -> w_dir w1 !! lk = None) as Hgone1.
  { intros lk Hlk. apply Hgone. congruence. }
  pose proof (unlock_released_noop m1 w1 Hl Hfd Hgone1) as (R1 & R2 & R3 & R4).
  destruct (mnt_unlock_file (Some m1) w1) as [ml2 w2]; simpl in *.
  do 4 (split; [done|]). intros ? [= <-]. auto.
Qed.

(** A handle that owns the lock, in the world a successful mnt_lock_file
    leaves behind. *)
Definition handle_owner : mnt_lock :=
  MntLock (Some "/etc/mtab~") (Some "/etc/mtab~.4242") 0 1.
Definition world_owned : world :=
  World {[ "/etc/mtab~" := (1, 100) ]} {[ (1, 100) := Inode 384 "" ]} (1, 101)
        {[ 0 := (1, 100) ]} 18 4242 1000 0 3 [] [].

Lemma mnt_unlock_file_idempotent_witness :
  let '(ml1, w1) := mnt_unlock_file (Some handle_owner) world_owned in
  let '(ml2, w2) := mnt_unlock_file ml1 w1 in
  ml2 = ml1 /\ w_dir w2 = w_dir w1 /\ w_ino w2 = w_ino w1 /\ w_fds w2 = w_fds w1 /\
  (forall m1, ml1 = Some m1 -> locked m1 = 0 /\ lockfile_fd m1 = -1).
Proof.
  apply (mnt_unlock_file_idempotent (Some handle_owner) world_owned).
  simpl. constructor.
Defined.

(** ** Descriptors *)

Section Descriptors.
Implicit Types (fds : gmap Z (Z * Z)) (w : world).

Lemma first_free_spec fds k fd :
  let r := first_free fds k fd in
  fd <= r /\
  (fds !! r = None \/
   (r = fd + Z.of_nat k /\ forall i, fd <= i < fd + Z.of_nat k -> is_Some (fds !! i))).
Proof.
  revert fd. induction k as [|k IH]; intros fd; simpl.
  - split; [lia|]. right. split; [lia|]. intros i Hi. lia.
  - destruct (fds !! fd) as [a|] eqn:E.
    + destruct (IH (fd + 1)) as [Hle [Hn|[Hr Hall]]].
      * split; [lia|]. by left.
      * split; [lia|]. right. split; [lia|].
        intros i Hi. destruct (decide (i = fd)) as [->|Hne]; [by rewrite E|].
        apply Hall. lia.
    + split; [lia|]. by left.
Qed.

Lemma lowest_free_nonneg fds : 0 <= lowest_free fds.
Proof. apply (first_free_spec fds (size fds) 0). Qed.

(** The descriptor open hands out is not in use: a table of n entries
    cannot hold all of 0, ..., n. *)
Lemma lowest_free_unused fds : fds !! lowest_free fds = None.
Proof.
  unfold lowest_free.
  destruct (first_free_spec fds (size fds) 0) as [_ [Hn|[Hr Hall]]]; [done|].
  rewrite Hr. simpl.
  destruct (fds !! Z.of_nat (size fds)) as [a|] eqn:E; [|done]. exfalso.
  set (s := list_to_set (Z.of_nat <$> seq 0 (S (size fds))) : gset Z).
  assert (s ⊆ dom fds) as Hsub.
  { intros i Hi. apply elem_of_dom. subst s.
    apply elem_of_list_to_set, list_elem_of_fmap in Hi as (n & -> & Hn).
    apply elem_of_seq in Hn.
    destruct (decide (n = size fds)) as [->|Hne]; [by rewrite E|].
    apply Hall. lia. }
  apply subseteq_size in Hsub. rewrite size_dom in Hsub.
  subst s. rewrite size_list_to_set in Hsub.
  - rewrite length_fmap, length_seq in Hsub. lia.
  - apply NoDup_fmap; [apply _|apply NoDup_seq].
Qed.

End Descriptors.

(** ** open and close *)

Section Open.
Implicit Types (w : world) (p : string).

Lemma open_failed p flags mode w i w1 :
  open p flags mode w = (i, w1) -> i < 0 ->
  i = -1 /\ 0 < w_errno w1 /\
  w_dir w1 = w_dir w /\ w_ino w1 = w_ino w /\ w_fds w1 = w_fds w.
Proof.
  intros H Hi. pose proof (lowest_free_nonneg (w_fds w)).
  sys_cases; repeat split; auto; lia.
Qed.

Lemma open_ok p flags mode w i w1 :
  open p flags mode w = (i, w1) -> 0 <= i ->
  w_fds w !! i = None /\
  exists a, w_fds w1 = <[i := a]> (w_fds w) /\ w_dir w1 !! p = Some a /\
    match w_dir w !! p with
    | Some a' => a' = a /\ w_dir w1 = w_dir w /\
                 (has_flag flags O_TRUNC = false -> w_ino w1 = w_ino w)
    | None => has_flag flags O_CREAT = true /\
              w_dir w1 = <[p := a]> (w_dir w) /\
              w_ino w1 = <[a := Inode (Z.ldiff mode (w_umask w)) ""]> (w_ino w)
    end.
Proof.
  intros H Hi. pose proof (lowest_free_nonneg (w_fds w)).
  pose proof (lowest_free_unused (w_fds w)).
  sys_cases; try lia; (split; [done|]); eexists; (split; [reflexivity|]);
    rewrite ?lookup_insert_eq; repeat split; auto; congruence.
Qed.

(** Closing a descriptor that open has just handed out restores the
    table. *)
Lemma open_close_fds p flags mode w i w1 :
  open p flags mode w = (i, w1) -> 0 <= i ->
  w_fds (close i w1).2 = w_fds w /\
  w_dir (close i w1).2 = w_dir w1 /\ w_ino (close i w1).2 = w_ino w1.
Proof.
  intros H Hi. destruct (open_ok _ _ _ _ _ _ H Hi) as (Hfree & a & Hf & _).
  split; [|split; [apply close_dir|apply close_ino]].
  assert (w_fds (close i w1).2 = delete i (w_fds w1)) as ->.
  { assert (w_fds w1 !! i = Some a) as Ha by (rewrite Hf; apply lookup_insert_eq).
    clear H Hf. sys_cases; auto. }
  rewrite Hf. by apply delete_insert_id.
Qed.

Lemma owner_only_mode u : Z.land (Z.ldiff (Z.lor S_IRUSR S_IWUSR) u) 63 = 0.
Proof.
  rewrite Z.ldiff_land, (Z.land_comm (Z.lor S_IRUSR S_IWUSR)), <- Z.land_assoc.
  change (Z.land (Z.lor S_IRUSR S_IWUSR) 63) with 0. apply Z.land_0_r.
Qed.

End Open.

(** ** Acquiring: the link file *)

Lemma rc_of_errno_pos e : 0 < e -> rc_of_errno e = - e.
Proof. unfold rc_of_errno. intros H. destruct (0 <? e) eqn:E; [done|lia]. Qed.

(** C6, as amended: mnt_lock_file first opens the link file for writing with
    O_CREAT and mode 0600 and closes it at once.  A link file that was
    missing is created empty, with no permission for group or others; one
    that was there is opened as it is, its contents and mode untouched (no
    truncation).  The descriptor table is then as before and the loop starts
    with the deadline 30 seconds ahead.  When the open fails, the release is
    done and the error reported at once, with no link attempt, whatever the
    fuel. *)
Theorem mnt_lock_file_linkfile_step (fuel : nat) (m : mnt_lock) (lo lk : string)
    (w : world) :
  locked m = 0 -> lockfile m = Some lo -> linkfile m = Some lk ->
  let '(i, w1) := open lk (Z.lor O_WRONLY O_CREAT) (Z.lor S_IRUSR S_IWUSR) w in
  if i <? 0 then
    0 < w_errno w1 /\
    mnt_lock_file fuel (Some m) w = Some (failed (- w_errno w1) m w1)
  else
    let w2 := (close i w1).2 in
    match w_dir w !! lk with
    | None =>
        exists f, file_at w2 lk = Some f /\ i_data f = "" /\
                  i_mode f = Z.ldiff (Z.lor S_IRUSR S_IWUSR) (w_umask w) /\
                  Z.land (i_mode f) 63 = 0
    | Some a => w_dir w2 !! lk = Some a /\ w_ino w2 = w_ino w
    end /\
    w_fds w2 = w_fds w /\
    mnt_lock_file fuel (Some m) w =
      lock_loop fuel m lo lk (w_now w2 + MOUNTLOCK_MAXTIME) (gettimeofday w2).2.
Proof.
  intros Hl Hlo Hlk. unfold mnt_lock_file. simpl. rewrite Hl, Hlo, Hlk. simpl.
  destruct (open lk (Z.lor O_WRONLY O_CREAT) (Z.lor S_IRUSR S_IWUSR) w)
    as [i w1] eqn:E.
  destruct (i <? 0) eqn:Ei.
  - destruct (open_failed _ _ _ _ _ _ E) as (_ & Hpos & _); [lia|].
    split; [done|]. by rewrite rc_of_errno_pos.
  - assert (0 <= i) as Hi by lia.
    destruct (open_ok _ _ _ _ _ _ E Hi) as (_ & a & _ & Ha & Hcase).
    destruct (open_close_fds _ _ _ _ _ _ E Hi) as (Hf & Hd & Hn).
    cbv zeta. split; [|split; [done|]].
    + destruct (w_dir w !! lk) as [a'|].
      * destruct Hcase as (-> & Hd1 & Hn1). rewrite Hd, Hn.
        split; [exact Ha|]. apply Hn1. reflexivity.
      * destruct Hcase as (_ & Hd1 & Hn1). eexists. split; [|split; [|split]].
        -- unfold file_at. rewrite Hd, Hn, Ha. simpl. rewrite Hn1.
           apply lookup_insert_eq.
        -- reflexivity.
        -- reflexivity.
        -- apply owner_only_mode.
    + by destruct (close i w1).
Qed.

(** A fresh handle for /etc/mtab owned by process 4242. *)
Definition handle_new : mnt_lock :=
  MntLock (Some "/etc/mtab~") (Some "/etc/mtab~.4242") (-1) 0.

Lemma mnt_lock_file_linkfile_step_witness :
  let '(i, w1) := open "/etc/mtab~.4242" (Z.lor O_WRONLY O_CREAT)
                       (Z.lor S_IRUSR S_IWUSR) world0 in
  if i <? 0 then
    0 < w_errno w1 /\
    mnt_lock_file 2 (Some handle_new) world0 = Some (failed (- w_errno w1) handle_new w1)
  else
    let w2 := (close i w1).2 in
    match w_dir world0 !! "/etc/mtab~.4242" with
    | None =>
        exists f, file_at w2 "/etc/mtab~.4242" = Some f /\ i_data f = "" /\
                  i_mode f = Z.ldiff (Z.lor S_IRUSR S_IWUSR) (w_umask world0) /\
                  Z.land (i_mode f) 63 = 0
    | Some a => w_dir w2 !! "/etc/mtab~.4242" = Some a /\ w_ino w2 = w_ino world0
    end /\
    w_fds w2 = w_fds world0 /\
    mnt_lock_file 2 (Some handle_new) world0 =
      lock_loop 2 handle_new "/etc/mtab~" "/etc/mtab~.4242"
                (w_now w2 + MOUNTLOCK_MAXTIME) (gettimeofday w2).2.
Proof.
  apply (mnt_lock_file_linkfile_step 2 handle_new "/etc/mtab~" "/etc/mtab~.4242" world0);
    reflexivity.
Defined.

(** A world in which a link file of this owner was left behind, with
    contents, readable by everybody. *)
Definition world_stale : world :=
  World {[ "/etc/mtab~.4242" := (1, 9) ]} {[ (1, 9) := Inode 420 "4242" ]} (1, 100)
        ∅ 18 4242 1000 0 0 [] [].

(** The link file step neither empties such a file nor changes its mode,
    and the file becomes the lock file as it is. *)
Lemma linkfile_step_keeps_contents :
  let '(i, w1) := open "/etc/mtab~.4242" (Z.lor O_WRONLY O_CREAT)
                       (Z.lor S_IRUSR S_IWUSR) world_stale in
  let w2 := (close i w1).2 in
  0 <= i /\
  (exists f, file_at w2 "/etc/mtab~.4242" = Some f /\ i_data f <> "" /\
             Z.land (i_mode f) 63 <> 0) /\
  (exists ml' w', mnt_lock_file 1 (Some handle_new) world_stale = Some (0, ml', w') /\
                  file_at w' "/etc/mtab~" = Some (Inode 420 "4242")).
Proof.
  vm_compute. split; [discriminate|]. split.
  - eexists. split; [reflexivity|]. split; discriminate.
  - eexists _, _. split; reflexivity.
Qed.

(** ** Acquiring: the loop *)

Section Loop.
Implicit Types (m : mnt_lock) (w : world) (lo lk : string).

Lemma set_fields_reset m j :
  locked m = 0 ->
  set_locked 0 (set_lockfile_fd (-1) (if j =? 0 then set_locked 1 m else m))
  = set_locked 0 (set_lockfile_fd (-1) m).
Proof. destruct m, (j =? 0); reflexivity. Qed.

Lemma link_not_fatal j e :
  j = 0 \/ e = EEXIST -> (j <? 0) && negb (e =? EEXIST) = false.
Proof. intros [->| ->]; [reflexivity|]. rewrite Z.eqb_refl. apply andb_false_r. Qed.

End Loop.

(** C7: in the loop, after a link attempt that succeeded or found the lock
    file in place, when the open of the lock file fails: if errno is ENOENT
    and the clock is before the deadline the loop starts over at the link
    attempt with the flag reset to 0 (and the descriptor field at -1) and no
    error; otherwise the release is done and minus the errno of the open is
    returned. *)
Theorem lock_loop_open_failure (fuel : nat) (m : mnt_lock) (lo lk : string)
    (maxtime : Z) (w : world) (j fd : Z) (w1 w2 : world) :
  locked m = 0 ->
  link lk lo w = (j, w1) ->
  (j = 0 \/ w_errno w1 = EEXIST) ->
  open lo O_WRONLY 0 w1 = (fd, w2) ->
  fd < 0 ->
  lock_loop (S fuel) m lo lk maxtime w =
    if (w_errno w2 =? ENOENT) && (w_now w2 <? maxtime) then
      lock_loop fuel (set_locked 0 (set_lockfile_fd (-1) m)) lo lk maxtime
                (gettimeofday w2).2
    else
      Some (failed (- w_errno w2)
                   (set_lockfile_fd (-1) (if j =? 0 then set_locked 1 m else m))
                   (gettimeofday w2).2).
Proof.
  intros Hl E1 Hj E2 Hfd. cbn [lock_loop]. rewrite Hl. cbn [Z.eqb negb].
  rewrite E1, E2. unfold gettimeofday at 1 2. cbn [snd].
  rewrite (link_not_fatal _ _ Hj).
  destruct (open_failed _ _ _ _ _ _ E2 Hfd) as (-> & Hpos & _).
  cbn [Z.ltb Z.compare]. rewrite (rc_of_errno_pos _ Hpos).
  destruct ((w_errno w2 =? ENOENT) && (w_now w2 <? maxtime)); [|reflexivity].
  by rewrite set_fields_reset.
Qed.

(** The link file is in place, the lock file is another owner's at the time
    of the link attempt (the attempt fails with EEXIST) and gone a moment
    later, when it is opened. *)
Definition world_race : world :=
  World {[ "/etc/mtab~.4242" := (1, 100) ]} {[ (1, 100) := Inode 384 "" ]} (1, 101)
        ∅ 18 4242 1000 0 3 [EnvStep 0 (Some 17%positive); EnvStep 1 None] [].

Lemma lock_loop_open_failure_witness :
  let w1 := (link "/etc/mtab~.4242" "/etc/mtab~" world_race).2 in
  let w2 := (open "/etc/mtab~" O_WRONLY 0 w1).2 in
  (w_errno w2 = ENOENT /\ w_now w2 = 1001) /\
  lock_loop 2 handle_new "/etc/mtab~" "/etc/mtab~.4242" 1030 world_race
  = lock_loop 1 (set_locked 0 (set_lockfile_fd (-1) handle_new))
              "/etc/mtab~" "/etc/mtab~.4242" 1030 (gettimeofday w2).2.
Proof.
  cbv zeta.
  set (r1 := link "/etc/mtab~.4242" "/etc/mtab~" world_race).
  set (r2 := open "/etc/mtab~" O_WRONLY 0 r1.2).
  assert (w_errno r1.2 = EEXIST) as He by (vm_compute; reflexivity).
  assert (r2.1 < 0) as Hfd by (vm_compute; reflexivity).
  assert (w_errno r2.2 = ENOENT) as H2 by (vm_compute; reflexivity).
  assert (w_now r2.2 = 1001) as Hn by (vm_compute; reflexivity).
  split; [by split|].
  rewrite (lock_loop_open_failure 1 handle_new "/etc/mtab~" "/etc/mtab~.4242" 1030
             world_race r1.1 r2.1 r1.2 r2.2 eq_refl (surjective_pairing r1)
             (or_intror He) (surjective_pairing r2) Hfd).
  rewrite H2, Hn. reflexivity.
Defined.

(** ** Acquiring: the bounded wait *)

Section Wait.
Implicit Types (m : mnt_lock) (w : world).

(** What mnt_wait_lock returns: 1 when the deadline has passed on entry;
    otherwise what becomes of the blocking fcntl, an interruption counting
    as 1 too. *)
Lemma mnt_wait_lock_result m maxtime w :
  (mnt_wait_lock m maxtime w).1 =
    if maxtime <=? w_now w then 1
    else match w_fds w !! lockfile_fd m with
         | None => - EBADF
         | Some _ => match next_fault w with
                     | None => 0
                     | Some e => if Z.pos e =? EINTR then 1 else - Z.pos e
                     end
         end.
Proof.
  unfold mnt_wait_lock, next_fault.
  sys_cases; auto; try lia.
Qed.

End Wait.

(** C1, as amended: in the loop, when the lock file is somebody else's (the
    link attempt failed with EEXIST) and was opened, mnt_wait_lock returns 1
    exactly when the deadline has passed on entry or the blocking fcntl is
    interrupted (EINTR), at whatever time, and 0 exactly when the record
    lock is granted before the deadline.  On 1 the release is done and
    -ETIMEDOUT returned; on a negative result the release is done and that
    result returned; only on 0 does the loop sleep, close the descriptor, set
    the field to -1 and start over at the link attempt. *)
Theorem lock_loop_wait (fuel : nat) (m : mnt_lock) (lo lk : string)
    (maxtime : Z) (w : world) (j fd err : Z) (w1 w2 w3 : world) :
  locked m = 0 ->
  link lk lo w = (j, w1) -> j < 0 -> w_errno w1 = EEXIST ->
  open lo O_WRONLY 0 w1 = (fd, w2) -> 0 <= fd ->
  mnt_wait_lock (set_lockfile_fd fd m) maxtime w2 = (err, w3) ->
  (err = 1 <-> maxtime <= w_now w2 \/ next_fault w2 = Some 4%positive) /\
  (err = 0 <-> w_now w2 < maxtime /\ next_fault w2 = None) /\
  lock_loop (S fuel) m lo lk maxtime w =
    if err =? 1 then Some (failed (- ETIMEDOUT) (set_lockfile_fd fd m) w3)
    else if err <? 0 then Some (failed err (set_lockfile_fd fd m) w3)
    else lock_loop fuel (set_lockfile_fd (-1) (set_lockfile_fd fd m)) lo lk maxtime
           (close fd (nanosleep (1000 * MOUNTLOCK_WAITTIME) w3)).2.
Proof.
  intros Hl E1 Hj He E2 Hfd E3. cbn [lock_loop]. rewrite Hl. cbn [Z.eqb negb].
  rewrite E1, E2.
  pose proof (mnt_wait_lock_result (set_lockfile_fd fd m) maxtime w2) as Hr.
  rewrite E3 in Hr. cbn [fst lockfile_fd set_lockfile_fd] in Hr.
  destruct (open_ok _ _ _ _ _ _ E2 Hfd) as (_ & a & Hf & _).
  rewrite Hf, lookup_insert_eq in Hr.
  split; [|split].
  - rewrite Hr. destruct (maxtime <=? w_now w2) eqn:Et; [split; [left|]; auto; lia|].
    destruct (next_fault w2) as [e|].
    + destruct (Z.pos e =? EINTR) eqn:Ee.
      * split; [right|done]. f_equal. apply Z.eqb_eq in Ee. unfold EINTR in Ee. lia.
      * split; [lia|]. intros [?|[= ->]]; [lia|]. discriminate Ee.
    + split; [discriminate|]. intros [?|?]; [lia|discriminate].
  - rewrite Hr. destruct (maxtime <=? w_now w2) eqn:Et; [split; [discriminate|lia]|].
    destruct (next_fault w2) as [e|].
    + destruct (Z.pos e =? EINTR); (split; [lia|]); intros [_ ?]; discriminate.
    + split; [|done]. split; [lia|done].
  - rewrite He. cbn [Z.eqb Pos.eqb negb]. rewrite andb_false_r.
    assert ((fd <? 0) = false) as -> by lia.
    assert ((j =? 0) = false) as -> by lia.
    cbn [locked set_lockfile_fd]. rewrite Hl. cbn [Z.eqb negb]. rewrite E3.
    destruct (err =? 1); [done|]. destruct (err <? 0); [done|].
    by destruct (close fd (nanosleep (1000 * MOUNTLOCK_WAITTIME) w3)).
Qed.

(** Somebody else holds the lock; this owner's link file is in place.  The
    blocking wait is interrupted by a signal after one second. *)
Definition world_contended : world :=
  World {[ "/etc/mtab~" := (1, 7); "/etc/mtab~.4242" := (1, 100) ]}
        {[ (1, 7) := Inode 384 ""; (1, 100) := Inode 384 "" ]} (1, 101)
        ∅ 18 4242 1000 0 3
        [EnvStep 0 None; EnvStep 0 None; EnvStep 1 (Some 4%positive)] [].

Lemma lock_loop_wait_witness :
  let w1 := (link "/etc/mtab~.4242" "/etc/mtab~" world_contended).2 in
  let w2 := (open "/etc/mtab~" O_WRONLY 0 w1).2 in
  let m2 := set_lockfile_fd 0 handle_new in
  let w3 := (mnt_wait_lock m2 1030 w2).2 in
  (w_now w2 < 1030 /\ w_now w3 = 1001) /\
  lock_loop 1 handle_new "/etc/mtab~" "/etc/mtab~.4242" 1030 world_contended
  = Some (failed (- ETIMEDOUT) m2 w3).
Proof.
  cbv zeta.
  set (r1 := link "/etc/mtab~.4242" "/etc/mtab~" world_contended).
  set (r2 := open "/etc/mtab~" O_WRONLY 0 r1.2).
  assert (r2.1 = 0) as Hfd0 by (vm_compute; reflexivity).
  rewrite <- Hfd0.
  set (r3 := mnt_wait_lock (set_lockfile_fd r2.1 handle_new) 1030 r2.2).
  assert (r1.1 < 0) as Hj by (vm_compute; reflexivity).
  assert (w_errno r1.2 = EEXIST) as He by (vm_compute; reflexivity).
  assert (0 <= r2.1) as Hfd by (rewrite Hfd0; lia).
  assert (r3.1 = 1) as Herr by (vm_compute; reflexivity).
  assert (w_now r2.2 < 1030) as Hn2 by (vm_compute; reflexivity).
  assert (w_now r3.2 = 1001) as Hn3 by (vm_compute; reflexivity).
  split; [by split|].
  destruct (lock_loop_wait 0 handle_new "/etc/mtab~" "/etc/mtab~.4242" 1030
              world_contended r1.1 r2.1 r3.1 r1.2 r2.2 r3.2 eq_refl
              (surjective_pairing r1) Hj He (surjective_pairing r2) Hfd
              (surjective_pairing r3)) as (_ & _ & H).
  rewrite H, Herr. reflexivity.
Defined.

(** The same through mnt_lock_file: the lock is held by somebody else, the
    wait is interrupted one second after the start, 29 seconds before the
    deadline, and mnt_lock_file gives up with -ETIMEDOUT. *)
Definition world_interrupted : world :=
  World {[ "/etc/mtab~" := (1, 7) ]} {[ (1, 7) := Inode 384 "" ]} (1, 100)
        ∅ 18 4242 1000 0 3
        [EnvStep 0 None; EnvStep 0 None; EnvStep 0 None; EnvStep 0 None;
         EnvStep 1 (Some 4%positive)] [].

Lemma interrupted_wait_reports_timeout :
  exists ml' w',
    mnt_lock_file 5 (Some handle_new) world_interrupted
    = Some (- ETIMEDOUT, ml', w') /\
    w_now w' = 1001 /\
    w_now w' < w_now world_interrupted + MOUNTLOCK_MAXTIME /\
    In (SysFcntl 0 F_SETLKW, - EINTR) (w_log w').
Proof.
  eexists _, _. split; [vm_compute; reflexivity|].
  split; [reflexivity|]. split; [reflexivity|].
  vm_compute. repeat ((left; reflexivity) || right).
Qed.

(** ** Failure of mnt_lock_file *)

Section Failure.
Implicit Types (m : mnt_lock) (w : world) (lo lk : string).

Lemma unlink_log p w :
  exists r, w_log (unlink p w).2 = (SysUnlink p, r) :: w_log w /\
            (w_dir (unlink p w).2 !! p = None \/ r < 0).
Proof.
  sys_cases; eexists; (split; [reflexivity|]);
    first [by left | by (left; apply lookup_delete_eq) | right; lia].
Qed.

Lemma close_log fd w : exists r, w_log (close fd w).2 = (SysClose fd, r) :: w_log w.
Proof. sys_cases; eexists; reflexivity. Qed.

Lemma stat_log p w : exists r, w_log (stat p w).2 = (SysStat p, r) :: w_log w.
Proof. sys_cases; eexists; reflexivity. Qed.

Lemma recheck_owner_log m w :
  exists evs, w_log (recheck_owner m w).2 = evs ++ w_log w.
Proof.
  unfold recheck_owner.
  destruct (lockfile m) as [lo|], (linkfile m) as [lk|]; simpl; try (by exists []).
  destruct (locked m =? 0); simpl; [|by exists []].
  destruct (stat_log lo w) as [r1 H1].
  destruct (stat lo w) as [[? a1] w1]; simpl in *.
  assert (exists evs, w_log w1 = evs ++ w_log w) as Hw1 by (by exists [(SysStat lo, r1)]).
  destruct (_ =? 0); simpl; [|done].
  destruct (stat_log lk w1) as [r2 H2].
  destruct (stat lk w1) as [[? a2] w2]; simpl in *.
  assert (exists evs, w_log w2 = evs ++ w_log w) as Hw2.
  { exists [(SysStat lk, r2); (SysStat lo, r1)]. rewrite H2, H1. reflexivity. }
  by case_match.
Qed.

(** A release calls unlink on the link file; afterwards the link file is
    gone, unless the kernel refused that call. *)
Lemma unlock_unlinks_linkfile m w lk :
  linkfile m = Some lk ->
  let w' := (mnt_unlock_file (Some m) w).2 in
  exists evs r, w_log w' = evs ++ w_log w /\ In (SysUnlink lk, r) evs /\
                (w_dir w' !! lk = None \/ r < 0).
Proof.
  intros Hlk. unfold mnt_unlock_file.
  pose proof (recheck_owner_fields m w) as (F1 & F2 & F3).
  destruct (recheck_owner_log m w) as [evs0 H0].
  destruct (recheck_owner m w) as [m1 w1]; simpl in *.
  rewrite F2, Hlk.
  destruct (unlink_log lk w1) as (r & H1 & Hg).
  set (w2 := (unlink lk w1).2) in *.
  set (w3 := if 0 <=? lockfile_fd m1 then (close (lockfile_fd m1) w2).2 else w2).
  assert (exists evs, w_log w3 = evs ++ (SysUnlink lk, r) :: evs0 ++ w_log w
                      /\ w_dir w3 = w_dir w2) as (evs3 & H3 & D3).
  { subst w3. destruct (0 <=? lockfile_fd m1).
    - destruct (close_log (lockfile_fd m1) w2) as [rc Hc].
      exists [(SysClose (lockfile_fd m1), rc)]. rewrite Hc, H1, H0, close_dir. done.
    - exists []. rewrite H1, H0. done. }
  set (w4 := match lockfile m1 with
             | Some lo => if locked m1 =? 1 then (unlink lo w3).2 else w3
             | None => w3
             end).
  assert (exists evs, w_log w4 = evs ++ (SysUnlink lk, r) :: evs0 ++ w_log w
                      /\ (w_dir w3 !! lk = None -> w_dir w4 !! lk = None))
    as (evs4 & H4 & D4).
  { subst w4. destruct (lockfile m1) as [lo|]; [|by exists evs3].
    destruct (locked m1 =? 1); [|by exists evs3].
    destruct (unlink_log lo w3) as (r' & H' & _).
    exists ((SysUnlink lo, r') :: evs3). rewrite H', H3. split; [done|].
    apply unlink_stays_absent. }
  exists (evs4 ++ (SysUnlink lk, r) :: evs0), r. split; [|split].
  - rewrite H4, <- app_assoc. reflexivity.
  - apply in_or_app. right. by left.
  - destruct Hg as [Hg|Hg]; [left|by right]. apply D4. by rewrite D3.
Qed.

(** A release closes the descriptor the handle holds. *)
Lemma unlock_closes m w :
  0 <= lockfile_fd m ->
  w_fds (mnt_unlock_file (Some m) w).2 !! lockfile_fd m = None.
Proof.
  intros Hfd. unfold mnt_unlock_file.
  pose proof (recheck_owner_fields m w) as (F1 & F2 & F3).
  destruct (recheck_owner m w) as [m1 w1]; simpl in *.
  rewrite F3. assert ((0 <=? lockfile_fd m) = true) as -> by lia.
  set (w2 := match linkfile m1 with Some lk => (unlink lk w1).2 | None => w1 end).
  pose proof (close_closed (lockfile_fd m) w2) as Hc.
  destruct (lockfile m1) as [lo|]; [|done].
  destruct (locked m1 =? 1); [|done]. by rewrite unlink_fds.
Qed.

Lemma rc_of_errno_neg e : rc_of_errno e < 0.
Proof. unfold rc_of_errno. destruct (0 <? e) eqn:E; lia. Qed.


End Failure.

Lemma failed_code rc m w : (failed rc m w).1.1 = rc.
Proof. unfold failed. by destruct (mnt_unlock_file (Some m) w). Qed.

(** * Further properties of lock.c *)

(** ** More about the calls *)

Section Calls.
Implicit Types (w : world) (p q : string) (fd : Z).

Lemma link_ok oldp newp w w1 :
  link oldp newp w = (0, w1) ->
  exists a, w_dir w !! oldp = Some a /\ w_dir w !! newp = None /\
            w_dir w1 = <[newp := a]> (w_dir w) /\
            w_ino w1 = w_ino w /\ w_fds w1 = w_fds w.
Proof. intros H. sys_cases; try lia; eexists; repeat split; eauto. Qed.

Lemma link_failed oldp newp w j w1 :
  link oldp newp w = (j, w1) -> j <> 0 ->
  j = -1 /\ w_dir w1 = w_dir w /\ w_ino w1 = w_ino w /\ w_fds w1 = w_fds w.
Proof. intros H Hj. sys_cases; auto; lia. Qed.

(** link cannot succeed while the new path exists, whatever the
    environment does. *)
Lemma link_exists oldp newp w a :
  w_dir w !! newp = Some a -> (link oldp newp w).1 = -1.
Proof. intros H. sys_cases; auto; lia. Qed.

Lemma close_fds fd w : w_fds (close fd w).2 = delete fd (w_fds w).
Proof. sys_cases; auto; by rewrite delete_id. Qed.

Lemma fcntl_io fd cmd w :
  let w' := (fcntl fd cmd w).2 in
  w_dir w' = w_dir w /\ w_ino w' = w_ino w /\ w_fds w' = w_fds w.
Proof. sys_cases; auto. Qed.

Lemma nanosleep_io n w :
  let w' := nanosleep n w in
  w_dir w' = w_dir w /\ w_ino w' = w_ino w /\ w_fds w' = w_fds w.
Proof. sys_cases; auto. Qed.

Lemma mnt_wait_lock_io m maxtime w :
  let w' := (mnt_wait_lock m maxtime w).2 in
  w_dir w' = w_dir w /\ w_ino w' = w_ino w /\ w_fds w' = w_fds w.
Proof. unfold mnt_wait_lock. sys_cases; auto. Qed.


Lemma unlink_dir_quiet p w :
  no_faults (w_env w) -> w_dir (unlink p w).2 = delete p (w_dir w).
Proof.
  intros H. pose proof (no_faults_step _ H) as Hs. revert Hs.
  sys_unfold; simpl.
  repeat (case_match; simpl in *; simplify_eq; simpl in * );
    intros [? ?]; simplify_eq; auto; by rewrite delete_id.
Qed.

Lemma open_created p flags mode w i w1 :
  open p flags mode w = (i, w1) -> 0 <= i -> w_dir w !! p = None ->
  w_dir w1 = <[p := w_next w]> (w_dir w) /\
  w_ino w1 = <[w_next w := Inode (Z.ldiff mode (w_umask w)) ""]> (w_ino w).
Proof.
  intros H Hi Hp. pose proof (lowest_free_nonneg (w_fds w)).
  sys_cases; try lia; done.
Qed.

End Calls.

(** ** What a release touches, and what it does when nothing fails *)

Section ReleaseMore.
Implicit Types (m : mnt_lock) (w : world) (lo lk : string).

Lemma stat_found p w a :
  no_faults (w_env w) -> w_dir w !! p = Some a ->
  (stat p w).1 = (0, a).
Proof.
  intros H Hp. pose proof (no_faults_step _ H) as Hs. revert Hs.
  sys_unfold; simpl.
  repeat (case_match; simpl in *; simplify_eq; simpl in * );
    intros [? ?]; simplify_eq; auto.
Qed.

(** With nothing failing, the re-check flags as owner exactly the handle
    that is flagged already or whose two paths name one file. *)
Lemma recheck_owner_recovers m w lo lk :
  no_faults (w_env w) -> lockfile m = Some lo -> linkfile m = Some lk ->
  locked m = 0 -> same_file w lo lk ->
  locked (recheck_owner m w).1 = 1.
Proof.
  intros H Hlo Hlk Hl (a & Ha1 & Ha2). unfold recheck_owner.
  rewrite Hlo, Hlk, Hl. cbn [Z.eqb].
  pose proof (stat_found lo w a H Ha1) as S1.
  pose proof (stat_quiet lo w H) as Q1. pose proof (stat_dir lo w) as D1.
  destruct (stat lo w) as [[r1 a1] w1]. simpl in *. simplify_eq. cbn [Z.eqb].
  rewrite <- D1 in Ha2.
  pose proof (stat_found lk w1 a Q1 Ha2) as S2.
  destruct (stat lk w1) as [[r2 a2] w2]. simpl in *. simplify_eq.
  by rewrite !Z.eqb_refl.
Qed.

End ReleaseMore.

Lemma unlock_frame (m : mnt_lock) (w : world) :
  let w' := (mnt_unlock_file (Some m) w).2 in
  (forall q, lockfile m <> Some q -> linkfile m <> Some q ->
             w_dir w' !! q = w_dir w !! q) /\
  w_ino w' = w_ino w /\
  w_fds w' = if 0 <=? lockfile_fd m then delete (lockfile_fd m) (w_fds w)
             else w_fds w.
Proof.
  unfold mnt_unlock_file.
  pose proof (recheck_owner_fields m w) as (F1 & F2 & F3).
  pose proof (recheck_owner_io m w) as (I1 & I2 & I3).
  destruct (recheck_owner m w) as [m1 w1]; simpl in *.
  rewrite F1, F2, F3.
  set (w2 := match linkfile m with Some lk => (unlink lk w1).2 | None => w1 end).
  assert ((forall q, linkfile m <> Some q -> w_dir w2 !! q = w_dir w !! q) /\
          w_ino w2 = w_ino w /\ w_fds w2 = w_fds w) as (D2 & N2 & X2).
  { subst w2. destruct (linkfile m) as [lk|]; [|by rewrite I1].
    rewrite unlink_ino, unlink_fds. split; [|done].
    intros q Hq. rewrite unlink_dir_ne; [by rewrite I1|congruence]. }
  set (w3 := if 0 <=? lockfile_fd m then (close (lockfile_fd m) w2).2 else w2).
  assert (w_dir w3 = w_dir w2 /\ w_ino w3 = w_ino w /\
          w_fds w3 = if 0 <=? lockfile_fd m then delete (lockfile_fd m) (w_fds w)
                     else w_fds w) as (D3 & N3 & X3).
  { subst w3. destruct (0 <=? lockfile_fd m); [|done].
    by rewrite close_dir, close_ino, close_fds, X2. }
  assert (forall q, linkfile m <> Some q -> w_dir w3 !! q = w_dir w !! q) as D3'.
  { intros q Hq. rewrite D3. by apply D2. }
  destruct (lockfile m) as [lo|]; [|by auto].
  destruct (locked m1 =? 1); [|by auto].
  rewrite unlink_ino, unlink_fds. split; [|done].
  intros q Hq1 Hq2. rewrite unlink_dir_ne; [|congruence]. by apply D3'.
Qed.

(** X1: a release touches no directory entry but those of the handle's two
    paths, no inode at all, and no descriptor but the handle's, which it
    removes from the table when the field is not negative. *)
Theorem mnt_unlock_file_frame (m : mnt_lock) (w : world) :
  let w' := (mnt_unlock_file (Some m) w).2 in
  (forall q, lockfile m <> Some q -> linkfile m <> Some q ->
             w_dir w' !! q = w_dir w !! q) /\
  w_ino w' = w_ino w /\
  w_fds w' = if 0 <=? lockfile_fd m then delete (lockfile_fd m) (w_fds w)
             else w_fds w.
Proof.
  apply unlock_frame.
Qed.

Lemma mnt_unlock_file_frame_witness :
  let w' := (mnt_unlock_file (Some handle_owner) world_owned).2 in
  w_dir w' !! "/etc/fstab" = w_dir world_owned !! "/etc/fstab" /\
  w_ino w' = w_ino world_owned /\
  w_fds w' = delete 0 (w_fds world_owned).
Proof.
  destruct (mnt_unlock_file_frame handle_owner world_owned) as (D & N & X).
  split; [apply D; discriminate|]. split; [exact N|exact X].
Defined.

Lemma unlock_quiet (m : mnt_lock) (w : world) (lo lk : string) :
  no_faults (w_env w) -> lockfile m = Some lo -> linkfile m = Some lk ->
  let w' := (mnt_unlock_file (Some m) w).2 in
  (locked m = 1 \/ (locked m = 0 /\ same_file w lo lk) ->
   w_dir w' = delete lo (delete lk (w_dir w))) /\
  (locked m <> 1 -> ~ (locked m = 0 /\ same_file w lo lk) ->
   w_dir w' = delete lk (w_dir w)).
Proof.
  intros H Hlo Hlk. unfold mnt_unlock_file.
  pose proof (recheck_owner_fields m w) as (F1 & F2 & F3).
  pose proof (recheck_owner_io m w) as (I1 & I2 & I3).
  pose proof (recheck_owner_quiet m w H) as Q1.
  pose proof (recheck_owner_locked m w) as L.
  pose proof (recheck_owner_recovers m w lo lk H Hlo Hlk) as R.
  destruct (recheck_owner m w) as [m1 w1]; simpl in *.
  rewrite F1, F2, Hlo, Hlk.
  pose proof (unlink_dir_quiet lk w1 Q1) as D2. pose proof (unlink_quiet lk w1 Q1) as Q2.
  set (w2 := (unlink lk w1).2) in *.
  set (w3 := if 0 <=? lockfile_fd m1 then (close (lockfile_fd m1) w2).2 else w2).
  assert (w_dir w3 = w_dir w2 /\ no_faults (w_env w3)) as (D3 & Q3).
  { subst w3. destruct (0 <=? lockfile_fd m1); [|done].
    split; [apply close_dir|by apply close_quiet]. }
  split.
  - intros Hown. assert (locked m1 = 1) as ->.
    { destruct Hown as [Hown|[H0 Hs]]; [|by apply R].
      destruct L as [L|(L & _)]; congruence. }
    cbn [Z.eqb Pos.eqb]. rewrite unlink_dir_quiet; [|done]. by rewrite D3, D2, I1.
  - intros Hn1 Hn2. assert ((locked m1 =? 1) = false) as ->.
    { destruct L as [L|(L0 & _ & lo' & lk' & ? & ? & Hs)]; [lia|].
      exfalso. apply Hn2. split; [done|]. congruence. }
    by rewrite D3, D2, I1.
Qed.

(** X2: with nothing failing, a release removes the link file, and removes the
    lock file exactly when the handle is flagged as owner or, the flag being
    0, its link file is the lock file under another name. *)
Theorem mnt_unlock_file_quiet (m : mnt_lock) (w : world) (lo lk : string) :
  no_faults (w_env w) -> lockfile m = Some lo -> linkfile m = Some lk ->
  let w' := (mnt_unlock_file (Some m) w).2 in
  (locked m = 1 \/ (locked m = 0 /\ same_file w lo lk) ->
   w_dir w' = delete lo (delete lk (w_dir w))) /\
  (locked m <> 1 -> ~ (locked m = 0 /\ same_file w lo lk) ->
   w_dir w' = delete lk (w_dir w)).
Proof.
  intros H Hlo Hlk. by apply unlock_quiet.
Qed.

Lemma mnt_unlock_file_quiet_witness :
  w_dir (mnt_unlock_file (Some handle_owner) world_owned).2
  = delete "/etc/mtab~" (delete "/etc/mtab~.4242" (w_dir world_owned)).
Proof.
  apply (mnt_unlock_file_quiet handle_owner world_owned "/etc/mtab~" "/etc/mtab~.4242");
    [simpl; constructor|reflexivity|reflexivity|left; reflexivity].
Defined.

(** ** One iteration of the loop *)

(** The three ways an iteration of the loop of mnt_lock_file ends:
    [continue] or the end of the body (retry), [goto failed], or [break]. *)
Inductive exit :=
| Retry (m : mnt_lock) (w : world)
| GiveUp (rc : Z) (m : mnt_lock) (w : world)
| Done (m : mnt_lock) (w : world).

(** The body of the loop (lines 364-424), cut out of [lock_loop]. *)
Definition lock_iter (m : mnt_lock) (lockf linkf : string) (maxtime : Z) (w : world)
  : exit :=
  let '(j, w) := link linkf lockf w in
  let m := if j =? 0 then set_locked 1 m else m in
  if (j <? 0) && negb (w_errno w =? EEXIST) then
    GiveUp (rc_of_errno (w_errno w)) m w
  else
    let '(fd, w) := open lockf O_WRONLY 0 w in
    let m := set_lockfile_fd fd m in
    if fd <? 0 then
      let errsv := w_errno w in
      let '(now, w) := gettimeofday w in
      if (errsv =? ENOENT) && (now <? maxtime) then Retry (set_locked 0 m) w
      else GiveUp (rc_of_errno errsv) m w
    else if negb (locked m =? 0) then
      let '(_, w) := fcntl fd F_SETLK w in
      Done m w
    else
      let '(err, w) := mnt_wait_lock m maxtime w in
      if err =? 1 then GiveUp (- ETIMEDOUT) m w
      else if err <? 0 then GiveUp err m w
      else
        let w := nanosleep (1000 * MOUNTLOCK_WAITTIME) w in
        let '(_, w) := close fd w in
        Retry (set_lockfile_fd (-1) m) w.

Section Iteration.
Implicit Types (m : mnt_lock) (w : world) (lo lk : string).

(** [lock_loop] runs [lock_iter] until it does not ask for a retry. *)
Lemma lock_loop_iter fuel m lo lk maxtime w :
  locked m = 0 ->
  lock_loop (S fuel) m lo lk maxtime w =
    match lock_iter m lo lk maxtime w with
    | Retry m' w' => lock_loop fuel m' lo lk maxtime w'
    | GiveUp rc m' w' => Some (failed rc m' w')
    | Done m' w' => Some (0, Some m', (unlink lk w').2)
    end.
Proof.
  intros Hl. cbn [lock_loop]. rewrite Hl. cbn [Z.eqb negb]. unfold lock_iter.
  destruct (link lk lo w) as [j w1].
  destruct ((j <? 0) && negb (w_errno w1 =? EEXIST)); [done|].
  destruct (open lo O_WRONLY 0 w1) as [fd w2].
  destruct (fd <? 0).
  { destruct (gettimeofday w2) as [now w3]. by destruct (_ && _). }
  destruct (negb (locked (set_lockfile_fd fd (if j =? 0 then set_locked 1 m else m)) =? 0)).
  { destruct (fcntl fd F_SETLK w2) as [? w3]. by destruct (unlink lk w3). }
  destruct (mnt_wait_lock _ maxtime w2) as [err w3].
  destruct (err =? 1); [done|]. destruct (err <? 0); [done|].
  by destruct (close fd (nanosleep (1000 * MOUNTLOCK_WAITTIME) w3)).
Qed.

(** What an iteration may have done to the directory: nothing, or made the
    lock file a link to the link file's inode. *)
Definition dir_step (lo lk : string) (w w' : world) (linked : bool) : Prop :=
  if linked
  then exists a, w_dir w !! lk = Some a /\ w_dir w !! lo = None /\
                 w_dir w' = <[lo := a]> (w_dir w)
  else w_dir w' = w_dir w.

(** Every way out of an iteration, for a handle that is not flagged. *)
Lemma lock_iter_cases m lo lk maxtime w :
  locked m = 0 ->
  match lock_iter m lo lk maxtime w with
  | Retry m' w' =>
      locked m' = 0 /\ lockfile_fd m' = -1 /\
      lockfile m' = lockfile m /\ linkfile m' = linkfile m /\
      w_ino w' = w_ino w /\ w_fds w' = w_fds w /\
      exists linked, dir_step lo lk w w' linked
  | GiveUp rc m' w' =>
      rc < 0 /\ lockfile m' = lockfile m /\ linkfile m' = linkfile m /\
      w_ino w' = w_ino w /\
      (exists linked, dir_step lo lk w w' linked /\
                      locked m' = if linked then 1 else 0) /\
      ((lockfile_fd m' = lockfile_fd m \/ lockfile_fd m' = -1) /\ w_fds w' = w_fds w
       \/ 0 <= lockfile_fd m' /\ w_fds w !! lockfile_fd m' = None /\
          exists a, w_fds w' = <[lockfile_fd m' := a]> (w_fds w))
  | Done m' w' =>
      locked m' = 1 /\ lockfile m' = lockfile m /\ linkfile m' = linkfile m /\
      w_ino w' = w_ino w /\ dir_step lo lk w w' true /\
      0 <= lockfile_fd m' /\ w_fds w !! lockfile_fd m' = None /\
      exists a, w_dir w' !! lo = Some a /\
                w_fds w' = <[lockfile_fd m' := a]> (w_fds w)
  end.
Proof.
  intros Hl. unfold lock_iter.
  destruct (link lk lo w) as [j w1] eqn:E1.
  assert (exists linked, dir_step lo lk w w1 linked /\ linked = (j =? 0) /\
                         w_ino w1 = w_ino w /\ w_fds w1 = w_fds w)
    as (linked & Hstep & Hlinked & N1 & X1).
  { destruct (decide (j = 0)) as [->|Hj].
    - destruct (link_ok _ _ _ _ E1) as (a & ? & ? & ? & ? & ?).
      exists true. repeat split; auto. by exists a.
    - destruct (link_failed _ _ _ _ _ E1 Hj) as (? & ? & ? & ?).
      exists false. repeat split; auto. symmetry. by apply Z.eqb_neq. }
  set (m1 := if j =? 0 then set_locked 1 m else m).
  assert (lockfile m1 = lockfile m /\ linkfile m1 = linkfile m /\
          lockfile_fd m1 = lockfile_fd m /\
          locked m1 = if linked then 1 else 0) as (P1 & P2 & P3 & P4).
  { subst m1 linked. by destruct (j =? 0). }
  destruct ((j <? 0) && negb (w_errno w1 =? EEXIST)).
  { split; [apply rc_of_errno_neg|]. repeat split; auto. by exists linked.  }
  destruct (open lo O_WRONLY 0 w1) as [fd w2] eqn:E2.
  destruct (fd <? 0) eqn:Efd.
  { destruct (open_failed _ _ _ _ _ _ E2) as (-> & _ & D2 & N2 & X2); [lia|].
    assert (dir_step lo lk w w2 linked) as Hstep2.
    { unfold dir_step in *. destruct linked; by rewrite D2. }
    simpl. destruct ((w_errno w2 =? ENOENT) && (w_now w2 <? maxtime)); simpl.
    - repeat split; try congruence. by exists linked.
    - split; [apply rc_of_errno_neg|]. repeat split; try congruence.
      + by exists linked.
      + left. split; [by right|congruence]. }
  assert (0 <= fd) as Hfd by lia.
  destruct (open_ok _ _ _ _ _ _ E2 Hfd) as (Hfree & a & X2 & Da & Hcase).
  assert (w_dir w2 = w_dir w1 /\ w_ino w2 = w_ino w1) as (D2 & N2).
  { destruct (w_dir w1 !! lo) as [a'|] eqn:Elo.
    - destruct Hcase as (_ & ? & Hn). split; [done|]. by apply Hn.
    - by destruct Hcase as ([=] & _). }
  assert (dir_step lo lk w w2 linked) as Hstep2.
  { unfold dir_step in *. destruct linked; by rewrite D2. }
  rewrite X1 in Hfree, X2.
  cbn [locked set_lockfile_fd]. rewrite P4.
  destruct linked; cbn [Z.eqb Pos.eqb negb].
  - pose proof (fcntl_io fd F_SETLK w2) as (D3 & N3 & X3).
    destruct (fcntl fd F_SETLK w2) as [? w3]. simpl in *.
    repeat split; try congruence.
    + unfold dir_step in *. by rewrite D3.
    + exists a. split; congruence.
  - pose proof (mnt_wait_lock_result (set_lockfile_fd fd m1) maxtime w2) as Hr.
    pose proof (mnt_wait_lock_io (set_lockfile_fd fd m1) maxtime w2) as (D3 & N3 & X3).
    destruct (mnt_wait_lock (set_lockfile_fd fd m1) maxtime w2) as [err w3].
    simpl in D3, N3, X3.
    assert (dir_step lo lk w w3 false) as Hstep3.
    { unfold dir_step in *. congruence. }
    destruct (err =? 1).
    { split; [unfold ETIMEDOUT; lia|]. simpl. repeat split; try congruence.
      - by exists false.
      - right. split; [done|]. split; [done|]. exists a. congruence. }
    destruct (err <? 0) eqn:Eerr.
    { split; [lia|]. simpl. repeat split; try congruence.
      - by exists false.
      - right. split; [done|]. split; [done|]. exists a. congruence. }
    pose proof (nanosleep_io (1000 * MOUNTLOCK_WAITTIME) w3) as (D4 & N4 & X4).
    set (w4 := nanosleep (1000 * MOUNTLOCK_WAITTIME) w3) in *.
    pose proof (close_dir fd w4) as D5. pose proof (close_ino fd w4) as N5.
    pose proof (close_fds fd w4) as X5.
    destruct (close fd w4) as [? w5]. simpl in *.
    repeat split; try congruence.
    + rewrite X5, X4, X3, X2. by apply delete_insert_id.
    + exists false. unfold dir_step in *. congruence.
Qed.

End Iteration.

(** ** The loop as a whole *)

Section LoopSpec.
Implicit Types (m : mnt_lock) (w : world) (lo lk : string).

(** While the lock file exists the loop cannot end in success: link(2)
    fails, and nothing the loop does removes the lock file. *)
Lemma lock_loop_held fuel m lo lk maxtime w a rc ml' w' :
  locked m = 0 -> w_dir w !! lo = Some a ->
  lock_loop fuel m lo lk maxtime w = Some (rc, ml', w') -> rc < 0.
Proof.
  revert m w. induction fuel as [|fuel IH]; intros m w Hl Ha.
  - cbn [lock_loop]. rewrite Hl. discriminate.
  - rewrite lock_loop_iter by done.
    pose proof (lock_iter_cases m lo lk maxtime w Hl) as Hc.
    destruct (lock_iter m lo lk maxtime w) as [m1 w1|rc1 m1 w1|m1 w1].
    + destruct Hc as (Hl1 & _ & _ & _ & _ & _ & [[|] Hs]); unfold dir_step in Hs.
      * destruct Hs as (? & _ & Hn & _). congruence.
      * apply IH; [done|congruence].
    + destruct Hc as (Hneg & _). intros [= E].
      pose proof (failed_code rc1 m1 w1) as Hf. rewrite E in Hf. simpl in Hf. lia.
    + destruct Hc as (_ & _ & _ & _ & (? & _ & Hn & _) & _). congruence.
Qed.

(** How a successful run of the loop leaves things. *)
Lemma lock_loop_success fuel m lo lk maxtime w ml' w' :
  locked m = 0 ->
  lock_loop fuel m lo lk maxtime w = Some (0, ml', w') ->
  exists m' a,
    ml' = Some m' /\ locked m' = 1 /\
    lockfile m' = lockfile m /\ linkfile m' = linkfile m /\
    0 <= lockfile_fd m' /\ w_fds w !! lockfile_fd m' = None /\
    w_fds w' = <[lockfile_fd m' := a]> (w_fds w) /\
    w_dir w !! lk = Some a /\ w_dir w !! lo = None /\ w_dir w' !! lo = Some a /\
    w_ino w' = w_ino w /\
    (forall q, q <> lo -> q <> lk -> w_dir w' !! q = w_dir w !! q).
Proof.
  revert m w. induction fuel as [|fuel IH]; intros m w Hl.
  - cbn [lock_loop]. rewrite Hl. discriminate.
  - rewrite lock_loop_iter by done.
    pose proof (lock_iter_cases m lo lk maxtime w Hl) as Hc.
    destruct (lock_iter m lo lk maxtime w) as [m1 w1|rc1 m1 w1|m1 w1].
    + destruct Hc as (Hl1 & _ & P1 & P2 & N1 & X1 & [[|] Hs]); unfold dir_step in Hs.
      * destruct Hs as (a & _ & _ & Hd). intros H.
        assert (w_dir w1 !! lo = Some a) as Ha by (rewrite Hd; apply lookup_insert_eq).
        pose proof (lock_loop_held _ _ _ _ _ _ _ _ _ _ Hl1 Ha H). lia.
      * intros H. destruct (IH _ _ Hl1 H)
          as (m' & a & ? & ? & ? & ? & ? & ? & ? & ? & ? & ? & ? & ?).
        exists m', a. rewrite <- X1, <- Hs, <- N1, <- P1, <- P2. done.
    + destruct Hc as (Hneg & _). intros [= E].
      pose proof (failed_code rc1 m1 w1) as Hf. rewrite E in Hf. simpl in Hf. lia.
    + destruct Hc as (Hl1 & P1 & P2 & N1 & (a' & Hlk & Hlo & Hd) & Hfd & Hfree
                      & a & Ha & X1).
      intros [= <- <-]. exists m1, a.
      assert (a' = a) as -> by (rewrite Hd, lookup_insert_eq in Ha; congruence).
      assert (lk <> lo) as Hne by congruence.
      rewrite unlink_fds, unlink_ino, unlink_dir_ne by done.
      repeat split; auto.
      intros q Hq1 Hq2. rewrite unlink_dir_ne by done. rewrite Hd.
      by rewrite lookup_insert_ne.
Qed.

(** A failed run of the loop, for a handle that held no descriptor, leaves
    the descriptor table and the inodes as they were. *)
Lemma lock_loop_failure_fds fuel m lo lk maxtime w rc ml' w' :
  locked m = 0 -> lockfile_fd m < 0 ->
  lock_loop fuel m lo lk maxtime w = Some (rc, ml', w') -> rc <> 0 ->
  w_fds w' = w_fds w /\ w_ino w' = w_ino w.
Proof.
  revert m w. induction fuel as [|fuel IH]; intros m w Hl Hfd.
  - cbn [lock_loop]. rewrite Hl. discriminate.
  - rewrite lock_loop_iter by done.
    pose proof (lock_iter_cases m lo lk maxtime w Hl) as Hc.
    destruct (lock_iter m lo lk maxtime w) as [m1 w1|rc1 m1 w1|m1 w1].
    + destruct Hc as (Hl1 & Hfd1 & _ & _ & N1 & X1 & _). intros H Hrc.
      destruct (IH _ _ Hl1 ltac:(lia) H Hrc). split; congruence.
    + destruct Hc as (_ & _ & _ & N1 & _ & Hx). intros [= E] _. unfold failed in E.
      pose proof (unlock_frame m1 w1) as (_ & N2 & X2).
      destruct (mnt_unlock_file (Some m1) w1) as [ml2 w2]. simpl in *. simplify_eq.
      split; [|congruence].
      rewrite X2. destruct Hx as [[Hf X1]|(Hf & Hfree & a & X1)].
      * assert ((0 <=? lockfile_fd m1) = false) as -> by lia. done.
      * assert ((0 <=? lockfile_fd m1) = true) as -> by lia.
        rewrite X1. by apply delete_insert_id.
    + by intros [= <- <- <-].
Qed.

(** Whatever the loop does, directory entries other than the two paths stay
    as they were. *)
Lemma lock_loop_frame fuel m lo lk maxtime w rc ml' w' :
  locked m = 0 -> lockfile m = Some lo -> linkfile m = Some lk ->
  lock_loop fuel m lo lk maxtime w = Some (rc, ml', w') ->
  forall q, q <> lo -> q <> lk -> w_dir w' !! q = w_dir w !! q.
Proof.
  revert m w. induction fuel as [|fuel IH]; intros m w Hl Hlo Hlk.
  - cbn [lock_loop]. rewrite Hl. discriminate.
  - rewrite lock_loop_iter by done.
    pose proof (lock_iter_cases m lo lk maxtime w Hl) as Hc.
    assert (forall w1 linked q, dir_step lo lk w w1 linked -> q <> lo ->
                                w_dir w1 !! q = w_dir w !! q) as Hstep.
    { intros w1 [|] q Hs Hq; unfold dir_step in Hs; [|congruence].
      destruct Hs as (a & _ & _ & ->). by rewrite lookup_insert_ne. }
    destruct (lock_iter m lo lk maxtime w) as [m1 w1|rc1 m1 w1|m1 w1].
    + destruct Hc as (Hl1 & _ & P1 & P2 & _ & _ & [linked Hs]).
      intros H q Hq1 Hq2. rewrite (IH m1 w1) by congruence. eauto.
    + destruct Hc as (_ & P1 & P2 & _ & (linked & Hs & _) & _).
      intros [= E] q Hq1 Hq2. unfold failed in E.
      pose proof (unlock_frame m1 w1) as (D2 & _).
      destruct (mnt_unlock_file (Some m1) w1) as [ml2 w2]. simpl in *. simplify_eq.
      rewrite D2 by congruence. eauto.
    + destruct Hc as (_ & _ & _ & _ & Hs & _).
      intros [= <- <- <-] q Hq1 Hq2. rewrite unlink_dir_ne by done. eauto.
Qed.

End LoopSpec.

(** ** mnt_lock_file as a whole *)

Section Acquire.
Implicit Types (m : mnt_lock) (w : world) (lo lk : string).

(** mnt_lock_file on a handle that is not flagged and has its paths is its
    link file step followed by the loop. *)
Lemma mnt_lock_file_unfold fuel m lo lk w :
  locked m = 0 -> lockfile m = Some lo -> linkfile m = Some lk ->
  mnt_lock_file fuel (Some m) w =
    let '(i, w0) := open lk (Z.lor O_WRONLY O_CREAT) (Z.lor S_IRUSR S_IWUSR) w in
    if i <? 0 then Some (failed (rc_of_errno (w_errno w0)) m w0)
    else lock_loop fuel m lo lk (w_now (close i w0).2 + MOUNTLOCK_MAXTIME)
                   (gettimeofday (close i w0).2).2.
Proof.
  intros Hl Hlo Hlk. unfold mnt_lock_file. simpl. rewrite Hl, Hlo, Hlk. simpl.
  destruct (open lk _ _ w) as [i w0]. destruct (i <? 0); [done|].
  by destruct (close i w0).
Qed.

(** What the link file step leaves for the loop when the open succeeds. *)
Lemma linkfile_step_ok lk w i w0 :
  open lk (Z.lor O_WRONLY O_CREAT) (Z.lor S_IRUSR S_IWUSR) w = (i, w0) -> 0 <= i ->
  let w3 := (gettimeofday (close i w0).2).2 in
  w_fds w3 = w_fds w /\
  (forall q, q <> lk -> w_dir w3 !! q = w_dir w !! q) /\
  (forall a, w_dir w !! lk = Some a -> w_dir w3 = w_dir w /\ w_ino w3 = w_ino w).
Proof.
  intros E Hi. destruct (open_close_fds _ _ _ _ _ _ E Hi) as (X & D & N).
  destruct (open_ok _ _ _ _ _ _ E Hi) as (_ & a & _ & _ & Hcase).
  cbn [gettimeofday snd set_log w_fds w_dir w_ino]. rewrite X, D, N.
  split; [done|]. destruct (w_dir w !! lk) as [a'|] eqn:Elk.
  - destruct Hcase as (_ & -> & Hn). rewrite Hn by reflexivity. split; [done|].
    intros ? _. done.
  - destruct Hcase as (_ & -> & _). split; [|discriminate].
    intros q Hq. by rewrite lookup_insert_ne.
Qed.

End Acquire.

Lemma lock_file_success (fuel : nat) (m : mnt_lock) (lo lk : string)
    (w : world) (ml' : option mnt_lock) (w' : world) :
  locked m = 0 -> lockfile m = Some lo -> linkfile m = Some lk ->
  mnt_lock_file fuel (Some m) w = Some (0, ml', w') ->
  exists m' a,
    ml' = Some m' /\ locked m' = 1 /\
    lockfile m' = Some lo /\ linkfile m' = Some lk /\
    0 <= lockfile_fd m' /\ w_fds w !! lockfile_fd m' = None /\
    w_fds w' = <[lockfile_fd m' := a]> (w_fds w) /\
    w_dir w !! lo = None /\ w_dir w' !! lo = Some a /\ lo <> lk /\
    (forall a0, w_dir w !! lk = Some a0 -> a = a0).
Proof.
  intros Hl Hlo Hlk. rewrite (mnt_lock_file_unfold _ _ lo lk) by done.
  destruct (open lk _ _ w) as [i w0] eqn:E.
  destruct (i <? 0) eqn:Ei.
  { intros [= H]. pose proof (failed_code (rc_of_errno (w_errno w0)) m w0) as Hc.
    rewrite H in Hc. simpl in Hc. pose proof (rc_of_errno_neg (w_errno w0)). lia. }
  assert (0 <= i) as Hi by lia.
  destruct (linkfile_step_ok _ _ _ _ E Hi) as (X & D & S).
  intros H. destruct (lock_loop_success _ _ _ _ _ _ _ _ Hl H)
    as (m' & a & -> & ? & P1 & P2 & ? & Hfree & X' & Dlk & Dlo & Dlo' & _ & _).
  exists m', a. assert (lo <> lk) as Hne by congruence.
  rewrite X in Hfree, X'. rewrite D in Dlo by done.
  repeat split; auto; try congruence.
  intros a0 Ha0. destruct (S a0 Ha0) as (Hd & _). congruence.
Qed.





Lemma lock_file_held (fuel : nat) (m : mnt_lock) (lo lk : string)
    (w : world) (a : Z * Z) (rc : Z) (ml' : option mnt_lock) (w' : world) :
  locked m = 0 -> lockfile m = Some lo -> linkfile m = Some lk ->
  w_dir w !! lo = Some a ->
  mnt_lock_file fuel (Some m) w = Some (rc, ml', w') ->
  rc < 0.
Proof.
  intros Hl Hlo Hlk Ha. rewrite (mnt_lock_file_unfold _ _ lo lk) by done.
  destruct (open lk _ _ w) as [i w0] eqn:E.
  destruct (i <? 0) eqn:Ei.
  { intros [= H]. pose proof (failed_code (rc_of_errno (w_errno w0)) m w0) as Hc.
    rewrite H in Hc. simpl in Hc. pose proof (rc_of_errno_neg (w_errno w0)). lia. }
  assert (0 <= i) as Hi by lia.
  destruct (linkfile_step_ok _ _ _ _ E Hi) as (X & D & S).
  apply (lock_loop_held _ _ _ _ _ _ a); [done|].
  destruct (decide (lo = lk)) as [->|Hne].
  - destruct (S a Ha) as (-> & _). done.
  - by rewrite D.
Qed.

(** X4: while the lock file exists mnt_lock_file does not succeed, whatever the
    environment does and however long it is given: every result is an
    error. *)
Theorem mnt_lock_file_held (fuel : nat) (m : mnt_lock) (lo lk : string)
    (w : world) (a : Z * Z) (rc : Z) (ml' : option mnt_lock) (w' : world) :
  locked m = 0 -> lockfile m = Some lo -> linkfile m = Some lk ->
  w_dir w !! lo = Some a ->
  mnt_lock_file fuel (Some m) w = Some (rc, ml', w') ->
  rc < 0.
Proof.
  intros Hl Hlo Hlk Ha Hrun. eapply lock_file_held; eassumption.
Qed.

Lemma mnt_lock_file_held_witness :
  exists ml' w',
    mnt_lock_file 5 (Some handle_new) world_interrupted = Some (- ETIMEDOUT, ml', w') /\
    - ETIMEDOUT < 0.
Proof.
  eexists _, _. split; [vm_compute; reflexivity|].
  eapply (mnt_lock_file_held 5 handle_new "/etc/mtab~" "/etc/mtab~.4242"
            world_interrupted (1, 7) (- ETIMEDOUT));
    [reflexivity|reflexivity|reflexivity|reflexivity|].
  vm_compute. reflexivity.
Defined.

(** X5: a failed mnt_lock_file leaks no descriptor: for a handle that held none
    (field negative, as mnt_new_lock and mnt_unlock_file leave it) the
    descriptor table after a failure is the table before the call. *)
Theorem mnt_lock_file_no_leak (fuel : nat) (m : mnt_lock) (lo lk : string)
    (w : world) (rc : Z) (ml' : option mnt_lock) (w' : world) :
  locked m = 0 -> lockfile m = Some lo -> linkfile m = Some lk ->
  lockfile_fd m < 0 ->
  mnt_lock_file fuel (Some m) w = Some (rc, ml', w') -> rc <> 0 ->
  w_fds w' = w_fds w.
Proof.
  intros Hl Hlo Hlk Hfd. rewrite (mnt_lock_file_unfold _ _ lo lk) by done.
  destruct (open lk _ _ w) as [i w0] eqn:E.
  destruct (i <? 0) eqn:Ei.
  { intros [= H] _. unfold failed in H.
    destruct (open_failed _ _ _ _ _ _ E) as (_ & _ & _ & _ & X0); [lia|].
    pose proof (unlock_frame m w0) as (_ & _ & X).
    destruct (mnt_unlock_file (Some m) w0) as [ml2 w2]. simpl in *. simplify_eq.
    rewrite X. assert ((0 <=? lockfile_fd m) = false) as -> by lia. done. }
  assert (0 <= i) as Hi by lia.
  destruct (linkfile_step_ok _ _ _ _ E Hi) as (X & _).
  intros H Hrc. destruct (lock_loop_failure_fds _ _ _ _ _ _ _ _ _ Hl Hfd H Hrc).
  congruence.
Qed.

Lemma mnt_lock_file_no_leak_witness :
  exists ml' w',
    mnt_lock_file 5 (Some handle_new) world_interrupted = Some (- ETIMEDOUT, ml', w') /\
    w_fds w' = w_fds world_interrupted.
Proof.
  eexists _, _. split; [vm_compute; reflexivity|].
  eapply (mnt_lock_file_no_leak 5 handle_new "/etc/mtab~" "/etc/mtab~.4242"
           world_interrupted (- ETIMEDOUT));
    [reflexivity|reflexivity|reflexivity|reflexivity| |discriminate].
  vm_compute. reflexivity.
Defined.

Lemma lock_file_frame (fuel : nat) (m : mnt_lock) (lo lk : string)
    (w : world) (rc : Z) (ml' : option mnt_lock) (w' : world) (q : string) :
  lockfile m = Some lo -> linkfile m = Some lk ->
  mnt_lock_file fuel (Some m) w = Some (rc, ml', w') ->
  q <> lo -> q <> lk ->
  w_dir w' !! q = w_dir w !! q.
Proof.
  intros Hlo Hlk H Hq1 Hq2.
  destruct (decide (locked m = 0)) as [Hl|Hl].
  2:{ unfold mnt_lock_file in H. assert ((locked m =? 0) = false) as E by lia.
      rewrite E in H. simpl in H. by simplify_eq. }
  rewrite (mnt_lock_file_unfold _ _ lo lk) in H by done.
  destruct (open lk _ _ w) as [i w0] eqn:E.
  destruct (i <? 0) eqn:Ei.
  { injection H as H. unfold failed in H.
    destruct (open_failed _ _ _ _ _ _ E) as (_ & _ & D0 & _); [lia|].
    pose proof (unlock_frame m w0) as (D & _).
    destruct (mnt_unlock_file (Some m) w0) as [ml2 w2]. simpl in *. simplify_eq.
    rewrite D by congruence. by rewrite D0. }
  assert (0 <= i) as Hi by lia.
  destruct (linkfile_step_ok _ _ _ _ E Hi) as (_ & D & _).
  rewrite (lock_loop_frame _ _ _ _ _ _ _ _ _ Hl Hlo Hlk H) by done. by apply D.
Qed.

(** X6: whatever its outcome, mnt_lock_file changes no directory entry other
    than those of the handle's lock file and link file. *)
Theorem mnt_lock_file_frame (fuel : nat) (m : mnt_lock) (lo lk : string)
    (w : world) (rc : Z) (ml' : option mnt_lock) (w' : world) (q : string) :
  lockfile m = Some lo -> linkfile m = Some lk ->
  mnt_lock_file fuel (Some m) w = Some (rc, ml', w') ->
  q <> lo -> q <> lk ->
  w_dir w' !! q = w_dir w !! q.
Proof.
  intros Hlo Hlk Hrun Hq1 Hq2. eapply lock_file_frame; eassumption.
Qed.

Lemma mnt_lock_file_frame_witness :
  exists ml' w',
    mnt_lock_file 1 (Some handle_new) world0 = Some (0, ml', w') /\
    w_dir w' !! "/etc/fstab" = w_dir world0 !! "/etc/fstab".
Proof.
  eexists _, _. split; [vm_compute; reflexivity|].
  eapply (mnt_lock_file_frame 1 handle_new "/etc/mtab~" "/etc/mtab~.4242" world0 0);
    [reflexivity|reflexivity| |discriminate|discriminate].
  vm_compute. reflexivity.
Defined.

(** ** When nothing fails *)

Section Quiet.
Implicit Types (m : mnt_lock) (w : world) (lo lk p : string).

Lemma open_quiet p flags mode w :
  no_faults (w_env w) ->
  is_Some (w_dir w !! p) \/ has_flag flags O_CREAT = true ->
  0 <= (open p flags mode w).1 /\ no_faults (w_env (open p flags mode w).2).
Proof.
  intros H Hp. pose proof (no_faults_step _ H) as Hs. revert Hs.
  pose proof (lowest_free_nonneg (w_fds w)).
  sys_unfold; simpl.
  repeat (case_match; simpl in *; simplify_eq; simpl in * );
    intros [? ?]; simplify_eq; auto; try lia;
    destruct Hp as [[? ?]|?]; congruence.
Qed.

Lemma link_quiet oldp newp w a :
  no_faults (w_env w) -> w_dir w !! oldp = Some a -> w_dir w !! newp = None ->
  (link oldp newp w).1 = 0 /\ no_faults (w_env (link oldp newp w).2).
Proof.
  intros H H1 H2. pose proof (no_faults_step _ H) as Hs. revert Hs.
  sys_unfold; simpl.
  repeat (case_match; simpl in *; simplify_eq; simpl in * );
    intros [? ?]; simplify_eq; auto.
Qed.

Lemma fcntl_quiet fd cmd w :
  no_faults (w_env w) -> no_faults (w_env (fcntl fd cmd w).2).
Proof.
  intros H. pose proof (no_faults_step _ H) as Hs. revert Hs.
  sys_unfold; simpl.
  repeat (case_match; simpl in *; simplify_eq; simpl in * );
    intros [? ?]; simplify_eq; auto.
Qed.

(** With the link file in place, the lock file missing and nothing failing,
    an iteration makes the link and leaves the loop. *)
Lemma lock_iter_quiet m lo lk maxtime w a :
  no_faults (w_env w) -> locked m = 0 ->
  w_dir w !! lk = Some a -> w_dir w !! lo = None ->
  exists m' w', lock_iter m lo lk maxtime w = Done m' w' /\ no_faults (w_env w').
Proof.
  intros H Hl Hlk Hlo. unfold lock_iter.
  destruct (link_quiet lk lo w a H Hlk Hlo) as (Hj & Q1).
  destruct (link lk lo w) as [j w1] eqn:E1. simpl in *. subst j.
  destruct (link_ok _ _ _ _ E1) as (a' & _ & _ & D1 & _).
  cbn [Z.eqb Z.ltb Z.compare andb].
  assert (is_Some (w_dir w1 !! lo)) as Hex by (rewrite D1, lookup_insert_eq; eauto).
  destruct (open_quiet lo O_WRONLY 0 w1 Q1 (or_introl Hex)) as (Hfd & Q2).
  destruct (open lo O_WRONLY 0 w1) as [fd w2]. simpl in *.
  assert ((fd <? 0) = false) as -> by lia.
  cbn [locked set_lockfile_fd set_locked Z.eqb negb].
  pose proof (fcntl_quiet fd F_SETLK w2 Q2) as Q3.
  destruct (fcntl fd F_SETLK w2) as [? w3]. simpl in *. eauto.
Qed.

(** With nothing failing and no lock file in the way, mnt_lock_file succeeds
    at the first attempt: one unit of fuel is enough. *)
Lemma mnt_lock_file_quiet fuel m lo lk w :
  no_faults (w_env w) ->
  locked m = 0 -> lockfile m = Some lo -> linkfile m = Some lk ->
  lo <> lk -> w_dir w !! lo = None ->
  exists ml' w', mnt_lock_file (S fuel) (Some m) w = Some (0, ml', w') /\
                 no_faults (w_env w').
Proof.
  intros H Hl Hlo Hlk Hne Hfree. rewrite (mnt_lock_file_unfold _ _ lo lk) by done.
  destruct (open_quiet lk (Z.lor O_WRONLY O_CREAT) (Z.lor S_IRUSR S_IWUSR) w H
              (or_intror eq_refl)) as (Hi & Q0).
  destruct (open lk _ _ w) as [i w0] eqn:E. cbn [fst snd] in *.
  assert ((i <? 0) = false) as -> by lia.
  destruct (linkfile_step_ok _ _ _ _ E Hi) as (_ & D & _).
  destruct (open_ok _ _ _ _ _ _ E Hi) as (_ & a & _ & Ha & _).
  pose proof (close_quiet i w0 Q0) as Q2. pose proof (close_dir i w0) as D2.
  set (w2 := (close i w0).2) in *.
  set (w3 := (gettimeofday w2).2) in *.
  assert (no_faults (w_env w3) /\ w_dir w3 = w_dir w2) as (Q3 & D3) by done.
  rewrite lock_loop_iter by done.
  destruct (lock_iter_quiet m lo lk (w_now w2 + MOUNTLOCK_MAXTIME) w3 a Q3 Hl)
    as (m' & w' & -> & Q').
  - by rewrite D3, D2.
  - rewrite D by done. done.
  - eexists _, _. split; [reflexivity|]. by apply unlink_quiet.
Qed.

End Quiet.

(** X7: acquire and release, with nothing failing and no lock file in the way:
    mnt_lock_file succeeds (any fuel of at least 1 is enough), and the
    release that follows leaves the directory as it was before the acquire,
    but for the link file, which is gone, and the descriptor table as it
    was; the handle is back to not flagged, with descriptor field -1. *)
Theorem acquire_release_round_trip (fuel : nat) (m : mnt_lock) (lo lk : string)
    (w : world) :
  no_faults (w_env w) ->
  locked m = 0 -> lockfile m = Some lo -> linkfile m = Some lk ->
  lo <> lk -> w_dir w !! lo = None ->
  exists m1 w1,
    mnt_lock_file (S fuel) (Some m) w = Some (0, Some m1, w1) /\
    locked m1 = 1 /\
    let r := mnt_unlock_file (Some m1) w1 in
    w_dir r.2 = delete lk (w_dir w) /\ w_fds r.2 = w_fds w /\
    exists m2, r.1 = Some m2 /\ locked m2 = 0 /\ lockfile_fd m2 = -1 /\
               lockfile m2 = Some lo /\ linkfile m2 = Some lk.
Proof.
  intros H Hl Hlo Hlk Hne Hfree.
  destruct (mnt_lock_file_quiet fuel m lo lk w H Hl Hlo Hlk Hne Hfree)
    as (ml' & w1 & Hrun & Q1).
  destruct (lock_file_success _ _ _ _ _ _ _ Hl Hlo Hlk Hrun)
    as (m1 & a & -> & Hl1 & P1 & P2 & Hfd & Hnew & X1 & _ & Dlo & _).
  exists m1, w1. split; [done|]. split; [done|]. cbv zeta.
  destruct (unlock_quiet m1 w1 lo lk Q1 P1 P2) as (Down & _).
  pose proof (unlock_frame m1 w1) as (_ & _ & X2).
  destruct (unlock_resets m1 w1) as (m2 & E2 & ? & ? & ? & ?).
  split; [|split].
  - rewrite Down by (by left). apply map_eq. intros q.
    destruct (decide (q = lo)) as [->|Hq1].
    { rewrite lookup_delete_eq, lookup_delete_ne by done. done. }
    rewrite lookup_delete_ne by done.
    destruct (decide (q = lk)) as [->|Hq2]; [by rewrite !lookup_delete_eq|].
    rewrite !lookup_delete_ne by done.
    by apply (lock_file_frame _ _ _ _ _ _ _ _ _ Hlo Hlk Hrun).
  - rewrite X2. assert ((0 <=? lockfile_fd m1) = true) as -> by lia.
    rewrite X1. by apply delete_insert_id.
  - exists m2. repeat split; congruence.
Qed.

Lemma acquire_release_round_trip_witness :
  exists m1 w1,
    mnt_lock_file 1 (Some handle_new) world0 = Some (0, Some m1, w1) /\
    locked m1 = 1 /\
    let r := mnt_unlock_file (Some m1) w1 in
    w_dir r.2 = delete "/etc/mtab~.4242" (w_dir world0) /\ w_fds r.2 = w_fds world0 /\
    exists m2, r.1 = Some m2 /\ locked m2 = 0 /\ lockfile_fd m2 = -1 /\
               lockfile m2 = Some "/etc/mtab~" /\
               linkfile m2 = Some "/etc/mtab~.4242".
Proof.
  apply (acquire_release_round_trip 0 handle_new "/etc/mtab~" "/etc/mtab~.4242" world0);
    [simpl; constructor|reflexivity|reflexivity|reflexivity|discriminate|reflexivity].
Defined.

(** ** Memory *)

Section Memory.
Implicit Types (w : world).

Lemma malloc_heap w :
  w_heap (malloc w).2 = w_heap w + (if (malloc w).1 then 1 else 0).
Proof. sys_cases; lia. Qed.

Lemma free_heap {A} (p : option A) w :
  w_heap (free p w) = w_heap w - match p with Some _ => 1 | None => 0 end.
Proof. destruct p; sys_cases; lia. Qed.

End Memory.

(** X8: mnt_new_lock and mnt_free_lock balance: when mnt_new_lock returns NULL
    every block it had allocated has been freed; when it returns a handle
    three blocks are live, and mnt_free_lock frees exactly those.  Neither
    makes a call on files or descriptors: freeing a handle does not release
    the lock. *)
Theorem mnt_new_lock_free_balance (datafile : option string) (id : Z) (w : world) :
  let '(ml, w') := mnt_new_lock datafile id w in
  match ml with
  | None => w_heap w' = w_heap w
  | Some m => w_heap w' = w_heap w + 3 /\ w_heap (mnt_free_lock ml w') = w_heap w
  end /\
  same_io w' (mnt_free_lock ml w').
Proof.
  unfold mnt_new_lock. destruct datafile as [d|]; [|split; [done|apply same_io_refl]].
  unfold asprintf, calloc.
  pose proof (malloc_heap w) as H1. destruct (malloc w) as [[|] w1]; simpl in H1.
  2:{ split; [lia|apply same_io_refl]. }
  pose proof (malloc_heap w1) as H2. destruct (malloc w1) as [[|] w2]; simpl in H2.
  2:{ split; [rewrite free_heap; lia|apply same_io_refl]. }
  pose proof (malloc_heap w2) as H3. destruct (malloc w2) as [[|] w3]; simpl in H3.
  2:{ split; [rewrite !free_heap; lia|apply same_io_refl]. }
  split.
  - split; [lia|]. unfold mnt_free_lock. cbn [lockfile linkfile].
    rewrite !free_heap. lia.
  - unfold mnt_free_lock. cbn [lockfile linkfile].
    eauto using same_io_trans, free_same_io.
Qed.

(** ** The two paths of a handle *)

(** X9: handles for one data file share the lock file; their link files are the
    same exactly when their owner ids (the id passed, or the pid when it is
    0) are; and a handle's link file is never its lock file. *)
Theorem linkfile_per_owner (p : string) (id1 id2 : Z) (w1 w2 w1' w2' : world)
    (m1 m2 : mnt_lock) :
  mnt_new_lock (Some p) id1 w1 = (Some m1, w1') ->
  mnt_new_lock (Some p) id2 w2 = (Some m2, w2') ->
  lockfile m1 = lockfile m2 /\
  (linkfile m1 = linkfile m2 <->
   (if id1 =? 0 then getpid w1 else id1) = (if id2 =? 0 then getpid w2 else id2)) /\
  linkfile m1 <> lockfile m1.
Proof.
  intros H1 H2.
  destruct (new_lock_handle _ _ _ _ _ H1) as (L1 & K1 & _).
  destruct (new_lock_handle _ _ _ _ _ H2) as (L2 & K2 & _).
  rewrite L1, L2, K1, K2. split; [done|]. split; [split|].
  - intros [= E]. apply (inj (String.app p)) in E.
    apply (inj (String.app "~.")) in E. unfold fmt_d in E.
    by apply (inj pretty) in E.
  - by intros ->.
  - intros [= E]. apply (inj (String.app p)) in E. discriminate E.
Qed.

Lemma linkfile_per_owner_witness :
  exists m1 m2,
    (mnt_new_lock (Some "/etc/mtab") 0 world0).1 = Some m1 /\
    (mnt_new_lock (Some "/etc/mtab") 7 world0).1 = Some m2 /\
    lockfile m1 = lockfile m2 /\
    (linkfile m1 = linkfile m2 <-> getpid world0 = 7) /\
    linkfile m1 <> lockfile m1.
Proof.
  eexists _, _. split; [reflexivity|]. split; [reflexivity|].
  apply (linkfile_per_owner "/etc/mtab" 0 7 world0 world0
           (mnt_new_lock (Some "/etc/mtab") 0 world0).2
           (mnt_new_lock (Some "/etc/mtab") 7 world0).2); reflexivity.
Defined.

(** ** The bounded wait *)

(** X10: mnt_wait_lock changes no file and no descriptor.  When the deadline has
    passed on entry it only reads the clock: no fcntl is made.  Otherwise it
    installs the handler, arms the alarm for the (positive) number of
    seconds left, makes one blocking fcntl, and, whatever that returns,
    disarms the alarm and restores the handler. *)
Theorem mnt_wait_lock_trace (m : mnt_lock) (maxtime : Z) (w : world) :
  let w' := (mnt_wait_lock m maxtime w).2 in
  (w_dir w' = w_dir w /\ w_ino w' = w_ino w /\ w_fds w' = w_fds w) /\
  if maxtime <=? w_now w
  then w_log w' = (SysGettimeofday, 0) :: w_log w
  else 0 < maxtime - w_now w /\
       exists r, w_log w' =
                   [(SysSigaction SIGALRM, 0); (SysAlarm 0, 0);
                    (SysFcntl (lockfile_fd m) F_SETLKW, r);
                    (SysAlarm (maxtime - w_now w), 0); (SysSigaction SIGALRM, 0);
                    (SysGettimeofday, 0)] ++ w_log w.
Proof.
  split; [apply mnt_wait_lock_io|].
  unfold mnt_wait_lock. cbn [gettimeofday].
  destruct (maxtime <=? w_now w) eqn:E; [done|].
  split; [lia|]. sys_cases; eexists; reflexivity.
Qed.

(** ** A contender and the holder's lock file *)

Section Contender.
Implicit Types (m : mnt_lock) (w : world) (lo lk : string).

(** While the lock file exists and is not the link file under another name,
    the loop leaves it, and every inode, alone. *)
Lemma lock_loop_respects fuel m lo lk maxtime w a rc ml' w' :
  locked m = 0 -> lockfile m = Some lo -> linkfile m = Some lk ->
  w_dir w !! lo = Some a -> ~ same_file w lo lk ->
  lock_loop fuel m lo lk maxtime w = Some (rc, ml', w') ->
  w_dir w' !! lo = Some a /\ w_ino w' = w_ino w.
Proof.
  revert m w. induction fuel as [|fuel IH]; intros m w Hl Hlo Hlk Ha Hns.
  - cbn [lock_loop]. rewrite Hl. discriminate.
  - rewrite lock_loop_iter by done.
    pose proof (lock_iter_cases m lo lk maxtime w Hl) as Hc.
    destruct (lock_iter m lo lk maxtime w) as [m1 w1|rc1 m1 w1|m1 w1].
    + destruct Hc as (Hl1 & _ & P1 & P2 & N1 & _ & [[|] Hs]); unfold dir_step in Hs.
      { destruct Hs as (? & _ & Hn & _). congruence. }
      intros H. destruct (IH m1 w1) with (1 := Hl1) (6 := H) as [? ?]; try congruence.
      * intros (b & ? & ?). apply Hns. exists b. by rewrite <- Hs.
      * split; congruence.
    + destruct Hc as (_ & P1 & P2 & N1 & ([|] & Hs & Hl1) & _); unfold dir_step in Hs.
      { destruct Hs as (? & _ & Hn & _). congruence. }
      intros [= E]. unfold failed in E.
      destruct (unlock_keeps_lockfile m1 w1 lo) as [D2 N2]; [done|congruence| |].
      * intros lk' Hlk' (b & ? & ?). apply Hns. exists b. rewrite <- Hs.
        split; congruence.
      * destruct (mnt_unlock_file (Some m1) w1) as [ml2 w2]. simpl in *. simplify_eq.
        split; congruence.
    + destruct Hc as (_ & _ & _ & _ & (? & _ & Hn & _) & _). congruence.
Qed.

End Contender.

(** X11: a contender respects the holder: while somebody else's lock file
    exists (it is not this handle's link file under another name, nor the
    inode the next created file would get), every result mnt_lock_file
    returns is an error, and it leaves the lock file in place, naming the
    same inode, with that inode untouched.  (Whether a result is returned at
    all is another matter: the loop has no bound of its own.) *)
Theorem mnt_lock_file_respects_holder (fuel : nat) (m : mnt_lock) (lo lk : string)
    (w : world) (a : Z * Z) (rc : Z) (ml' : option mnt_lock) (w' : world) :
  locked m = 0 -> lockfile m = Some lo -> linkfile m = Some lk ->
  w_dir w !! lo = Some a -> ~ same_file w lo lk -> w_next w <> a ->
  mnt_lock_file fuel (Some m) w = Some (rc, ml', w') ->
  rc < 0 /\ w_dir w' !! lo = Some a /\ w_ino w' !! a = w_ino w !! a.
Proof.
  intros Hl Hlo Hlk Ha Hns Hnext Hrun.
  split; [by eapply lock_file_held|].
  rewrite (mnt_lock_file_unfold _ _ lo lk) in Hrun by done.
  destruct (open lk _ _ w) as [i w0] eqn:E.
  destruct (i <? 0) eqn:Ei.
  { injection Hrun as Hrun. unfold failed in Hrun.
    destruct (open_failed _ _ _ _ _ _ E) as (_ & _ & D0 & N0 & _); [lia|].
    destruct (unlock_keeps_lockfile m w0 lo) as [D2 N2]; [done|done| |].
    - intros lk' Hlk' (b & ? & ?). apply Hns. exists b. rewrite <- D0.
      split; congruence.
    - destruct (mnt_unlock_file (Some m) w0) as [ml2 w2]. simpl in *. simplify_eq.
      split; congruence. }
  assert (0 <= i) as Hi by lia.
  assert (lo <> lk) as Hne.
  { intros ->. apply Hns. by exists a. }
  destruct (linkfile_step_ok _ _ _ _ E Hi) as (_ & D & S).
  destruct (open_close_fds _ _ _ _ _ _ E Hi) as (_ & Dc & Nc).
  set (w3 := (gettimeofday (close i w0).2).2) in *.
  assert (w_dir w3 = w_dir (close i w0).2 /\ w_ino w3 = w_ino (close i w0).2)
    as (D3 & N3) by done.
  assert (w_dir w3 !! lo = Some a) as Ha3 by (by rewrite D).
  assert (~ same_file w3 lo lk /\ w_ino w3 !! a = w_ino w !! a) as (Hns3 & Hino).
  { destruct (w_dir w !! lk) as [b|] eqn:Elk.
    - destruct (S b eq_refl) as (Hd & Hn). split; [|by rewrite Hn].
      intros (c & ? & ?). apply Hns. exists c. split; congruence.
    - destruct (open_created _ _ _ _ _ _ E Hi Elk) as (Hd & Hn). split.
      + intros (c & H1 & H2). rewrite D3, Dc, Hd in H1, H2.
        rewrite lookup_insert_ne in H1 by done. rewrite lookup_insert_eq in H2.
        congruence.
      + rewrite N3, Nc, Hn. by rewrite lookup_insert_ne. }
  destruct (lock_loop_respects _ _ _ _ _ _ _ _ _ _ Hl Hlo Hlk Ha3 Hns3 Hrun) as (? & Hn).
  split; [done|]. by rewrite Hn.
Qed.

Lemma mnt_lock_file_respects_holder_witness :
  exists ml' w',
    mnt_lock_file 5 (Some handle_new) world_interrupted = Some (- ETIMEDOUT, ml', w') /\
    - ETIMEDOUT < 0 /\ w_dir w' !! "/etc/mtab~" = Some (1, 7) /\
    w_ino w' !! (1, 7) = w_ino world_interrupted !! (1, 7).
Proof.
  eexists _, _. split; [vm_compute; reflexivity|].
  eapply (mnt_lock_file_respects_holder 5 handle_new "/etc/mtab~" "/etc/mtab~.4242"
            world_interrupted (1, 7) (- ETIMEDOUT));
    [reflexivity|reflexivity|reflexivity|reflexivity| |discriminate|].
  - intros (b & _ & H). vm_compute in H. discriminate H.
  - vm_compute. reflexivity.
Defined.

(** ** The owner's record lock *)

(** X12: once the link is made and the lock file opened, the loop ends in success
    whatever becomes of the F_SETLK request: the handle is flagged with the
    new descriptor, and unlink is called on the link file.  The record lock
    is not what ownership rests on. *)
Theorem lock_loop_owner_proceeds (fuel : nat) (m : mnt_lock) (lo lk : string)
    (maxtime : Z) (w w1 w2 : world) (fd : Z) :
  locked m = 0 ->
  link lk lo w = (0, w1) ->
  open lo O_WRONLY 0 w1 = (fd, w2) -> 0 <= fd ->
  lock_loop (S fuel) m lo lk maxtime w
  = Some (0, Some (set_lockfile_fd fd (set_locked 1 m)),
          (unlink lk (fcntl fd F_SETLK w2).2).2).
Proof.
  intros Hl E1 E2 Hfd. cbn [lock_loop]. rewrite Hl. cbn [Z.eqb negb].
  rewrite E1. cbn [Z.eqb Z.ltb Z.compare andb]. rewrite E2.
  assert ((fd <? 0) = false) as -> by lia.
  cbn [locked set_lockfile_fd set_locked Z.eqb negb].
  destruct (fcntl fd F_SETLK w2) as [? w3]. cbn [snd].
  by destruct (unlink lk w3).
Qed.

(** The link file is in place, the lock file is free, and the kernel has no
    record locks left to give (ENOLCK). *)
Definition world_nolock : world :=
  World {[ "/etc/mtab~.4242" := (1, 100) ]} {[ (1, 100) := Inode 384 "" ]} (1, 101)
        ∅ 18 4242 1000 0 3
        [EnvStep 0 None; EnvStep 0 None; EnvStep 0 (Some 37%positive)] [].

Lemma lock_loop_owner_proceeds_witness :
  let r1 := link "/etc/mtab~.4242" "/etc/mtab~" world_nolock in
  let r2 := open "/etc/mtab~" O_WRONLY 0 r1.2 in
  (fcntl r2.1 F_SETLK r2.2).1 = -1 /\
  lock_loop 1 handle_new "/etc/mtab~" "/etc/mtab~.4242" 1030 world_nolock
  = Some (0, Some (set_lockfile_fd r2.1 (set_locked 1 handle_new)),
          (unlink "/etc/mtab~.4242" (fcntl r2.1 F_SETLK r2.2).2).2).
Proof.
  cbv zeta.
  set (r1 := link "/etc/mtab~.4242" "/etc/mtab~" world_nolock).
  set (r2 := open "/etc/mtab~" O_WRONLY 0 r1.2).
  assert (r1.1 = 0) as Hj by (vm_compute; reflexivity).
  assert (0 <= r2.1) as Hfd by (vm_compute; discriminate).
  split; [vm_compute; reflexivity|].
  apply (lock_loop_owner_proceeds 0 handle_new "/etc/mtab~" "/etc/mtab~.4242" 1030
           world_nolock r1.2 r2.2 r2.1 eq_refl); [|apply surjective_pairing|exact Hfd].
  rewrite <- Hj. apply surjective_pairing.
Defined.

(** ** A failed acquire, from the first call to the last *)

(** The log of [w'] is the log of [w] with calls added. *)
Definition log_ext (w w' : world) : Prop := exists evs, w_log w' = evs ++ w_log w.

Section FailedAcquire.
Implicit Types (m : mnt_lock) (w : world) (lo lk p : string).

Lemma log_ext_refl w : log_ext w w.
Proof. by exists []. Qed.














End FailedAcquire.

Section FailedAcquireEnd.
Implicit Types (m : mnt_lock) (w : world) (lo lk : string).



End FailedAcquireEnd.



